(** * us-mayors: a shallow embedding of [mayors.py]

    The scraper posts one search per state to usmayors.org, parses the
    answer with BeautifulSoup's [html.parser] tree builder, turns every
    [ul] of the content region into a record and writes the records as
    CSV or JSON.

    The embedding starts at the parsed document: a page is the tree that
    [BeautifulSoup(response.text, 'html.parser')] builds.  Python [str]
    values are modelled as [string], one character per code point, over
    the code points U+0000 to U+00FF.  Exceptions are an explicit result
    type, [logging] calls are collected in a log, and the text handed to
    [out.write] is the output. *)

From Stdlib Require Import String Ascii List Arith Bool Lia.
From Stdlib Require Import DecimalString.
Import ListNotations.
Set Warnings "-abstract-large-number".
Local Open Scope string_scope.
Local Open Scope list_scope.

(* ===================================================================== *)
(** ** Python built-ins used by the program *)
(* ===================================================================== *)

Module Py.

(** The exceptions the program can meet. *)
Inductive exn : Type :=
| IndexError
| KeyError
| TypeError
| AttributeError
| ValueError
| HTTPError.

(** An evaluation either returns a value or raises. *)
Inductive result (A : Type) : Type :=
| Ok (a : A)
| Raise (e : exn).
Arguments Ok {A} a.
Arguments Raise {A} e.

Definition bind {A B : Type} (m : result A) (f : A -> result B) : result B :=
  match m with
  | Ok a => f a
  | Raise e => Raise e
  end.

Declare Scope py_scope.
Delimit Scope py_scope with py.
Notation "x <- m ;; k" := (bind m (fun x => k))
  (at level 61, m at next level, right associativity) : py_scope.

(** [seq[i]] on a list. *)
Definition getitem {A : Type} (l : list A) (i : nat) : result A :=
  match nth_error l i with
  | Some a => Ok a
  | None => Raise IndexError
  end.

(** [str.isspace] for one character: the white space of U+0000..U+00FF. *)
Definition isspace (c : ascii) : bool :=
  let n := nat_of_ascii c in
  ((9 <=? n)%nat && (n <=? 13)%nat) || ((28 <=? n)%nat && (n <=? 32)%nat)
  || (n =? 133)%nat || (n =? 160)%nat.

Fixpoint lstrip (s : string) : string :=
  match s with
  | EmptyString => EmptyString
  | String c s' => if isspace c then lstrip s' else s
  end.

Fixpoint rstrip (s : string) : string :=
  match s with
  | EmptyString => EmptyString
  | String c s' =>
      match rstrip s' with
      | EmptyString => if isspace c then EmptyString else String c EmptyString
      | r => String c r
      end
  end.

(** [s.strip()] *)
Definition strip (s : string) : string := rstrip (lstrip s).

(** [sub in s] for two strings. *)
Fixpoint contains (sub s : string) : bool :=
  prefix sub s ||
  match s with
  | EmptyString => false
  | String _ s' => contains sub s'
  end.

(** [s.replace(old, new)] where [old] is a single character, as at every
    call site of the program. *)
Fixpoint replace (old : ascii) (new : string) (s : string) : string :=
  match s with
  | EmptyString => EmptyString
  | String c s' =>
      if Ascii.eqb c old then (new ++ replace old new s')%string
      else String c (replace old new s')
  end.

(** [s.split(sep)] where [sep] is a single character, as at every call
    site with an argument.  The result is never empty. *)
Fixpoint split (sep : ascii) (s : string) : list string :=
  match s with
  | EmptyString => [EmptyString]
  | String c s' =>
      if Ascii.eqb c sep then EmptyString :: split sep s'
      else match split sep s' with
           | p :: ps => String c p :: ps
           | [] => [String c EmptyString]
           end
  end.

(** [s.split()]: the maximal runs of characters that are not white space. *)
Fixpoint runs (s : string) : list string :=
  match s with
  | EmptyString => [EmptyString]
  | String c s' =>
      if isspace c then EmptyString :: runs s'
      else match runs s' with
           | p :: ps => String c p :: ps
           | [] => [String c EmptyString]
           end
  end.

Definition split_ws (s : string) : list string :=
  filter (fun w => negb (w =? EmptyString)%string) (runs s).

(** [sep.join(l)] *)
Fixpoint join (sep : string) (l : list string) : string :=
  match l with
  | [] => EmptyString
  | [x] => x
  | x :: l' => (x ++ sep ++ join sep l')%string
  end.

(** [str(n)] for a natural number. *)
Definition str_of_nat (n : nat) : string :=
  NilZero.string_of_uint (Nat.to_uint n).

Definition newline : string := String (ascii_of_nat 10) EmptyString.
Definition cr : string := String (ascii_of_nat 13) EmptyString.

(** A [dict] with string keys.  Python keeps the keys in the order of
    their first insertion, which the JSON output shows, so a dictionary is
    an association list and an assignment to a key that is present keeps
    its place. *)
Definition dict (V : Type) : Type := list (string * V).

Fixpoint lookup {V : Type} (k : string) (d : dict V) : option V :=
  match d with
  | [] => None
  | (k', v) :: d' => if (k' =? k)%string then Some v else lookup k d'
  end.

(** [d[k] = v] *)
Fixpoint dict_set {V : Type} (k : string) (v : V) (d : dict V) : dict V :=
  match d with
  | [] => [(k, v)]
  | (k', v') :: d' =>
      if (k' =? k)%string then (k, v) :: d' else (k', v') :: dict_set k v d'
  end.

Definition keys {V : Type} (d : dict V) : list string := map fst d.

End Py.

Import Py.
Local Open Scope py_scope.

(* ===================================================================== *)
(** ** BeautifulSoup trees *)
(* ===================================================================== *)

Module Bs4.

(** A page element is a [NavigableString] (a [str] subclass; comments and
    the like are strings too) or a [Tag] with its name, its attribute
    dictionary and its children.  The trees are those of [html.parser]:
    tag names are lower case and start with a letter, and a void element
    such as [br] or [img] has no children. *)
#[warning="-register-all"] Inductive node : Type :=
| NavigableString (s : string)
| Tag (name : string) (attrs : dict string) (contents : list node).

(** [tag.contents] *)
Definition contents (n : node) : list node :=
  match n with
  | NavigableString _ => []
  | Tag _ _ cs => cs
  end.

(** [element.name]: [None] for a string. *)
Definition name (n : node) : option string :=
  match n with
  | NavigableString _ => None
  | Tag nm _ _ => Some nm
  end.

Definition named (nm : string) (n : node) : bool :=
  match n with
  | NavigableString _ => false
  | Tag nm' _ _ => (nm' =? nm)%string
  end.

(** [tag.descendants]: every element below the tag, in document order. *)
Fixpoint descendants (n : node) : list node :=
  match n with
  | NavigableString _ => []
  | Tag _ _ cs =>
      (fix below (l : list node) : list node :=
         match l with
         | [] => []
         | c :: l' => c :: descendants c ++ below l'
         end) cs
  end.

(** [tag.find_all(nm)] *)
Definition find_all (nm : string) (n : node) : list node :=
  filter (named nm) (descendants n).

(** [tag.find(nm)], which is also what [tag.nm] means for a name that is
    not an attribute of the [Tag] class. *)
Definition find (nm : string) (n : node) : option node :=
  hd_error (find_all nm n).

(** The classes of an element: the [class] attribute cut at white space. *)
Definition classes (n : node) : list string :=
  match n with
  | NavigableString _ => []
  | Tag _ a _ =>
      match lookup "class" a with
      | Some v => split_ws v
      | None => []
      end
  end.

(** [page.select_one('div.post-content')]: the first [div] of the
    document that has the class, or [None]. *)
Definition select_one_div_post_content (page : node) : option node :=
  hd_error
    (filter (fun n => named "div" n
                      && existsb (String.eqb "post-content") (classes n))
            (descendants page)).

(** The tree left after [br.decompose()] for every [br] below the tag
    (lines 53-54). *)
Fixpoint decompose_br (n : node) : node :=
  match n with
  | NavigableString _ => n
  | Tag nm a cs =>
      Tag nm a
        ((fix strip_all (l : list node) : list node :=
            match l with
            | [] => []
            | c :: l' =>
                if named "br" c then strip_all l'
                else decompose_br c :: strip_all l'
            end) cs)
  end.

(** [element.string]: a string is its own [string]; a tag has one only
    when it has exactly one child, whose [string] it then is. *)
Fixpoint node_string (n : node) : option string :=
  match n with
  | NavigableString s => Some s
  | Tag _ _ [c] => node_string c
  | Tag _ _ _ => None
  end.

(** [kw in element].  On a string this is the substring test.  On a tag
    it is [kw in tag.contents]: some child is a string equal to [kw]. *)
Definition py_in (kw : string) (n : node) : bool :=
  match n with
  | NavigableString s => contains kw s
  | Tag _ _ cs =>
      existsb (fun c => match c with
                        | NavigableString s => (s =? kw)%string
                        | Tag _ _ _ => false
                        end) cs
  end.

(** [element[key]]: the attribute of a tag ([KeyError] when it has none);
    a string cannot be indexed by a string. *)
Definition getattr (n : node) (key : string) : result string :=
  match n with
  | NavigableString _ => Raise TypeError
  | Tag _ a _ =>
      match lookup key a with
      | Some v => Ok v
      | None => Raise KeyError
      end
  end.

(** [tag.get(key)]: the attribute or [None]. *)
Definition get (n : node) (key : string) : option string :=
  match n with
  | NavigableString _ => None
  | Tag _ a _ => lookup key a
  end.

(** [element.split(sep)[i]].  On a string it is the [i]th piece.  A tag
    has no [split]: [tag.split] is [tag.find('split')].  When that is
    [None] the call raises [TypeError]; when it is a tag, calling it is
    [find_all(sep)], which is empty because no tag is named by the
    separator, and indexing the empty result raises [IndexError]. *)
Definition split_item (n : node) (sep : ascii) (i : nat) : result string :=
  match n with
  | NavigableString s => getitem (split sep s) i
  | Tag _ _ _ =>
      match find "split" n with
      | None => Raise TypeError
      | Some _ => Raise IndexError
      end
  end.

(** [tag.get_text()]: the strings below the element, concatenated. *)
Fixpoint get_text (n : node) : string :=
  match n with
  | NavigableString s => s
  | Tag _ _ cs =>
      (fix texts (l : list node) : string :=
         match l with
         | [] => EmptyString
         | c :: l' => (get_text c ++ texts l')%string
         end) cs
  end.

End Bs4.

Import Bs4.

(* ===================================================================== *)
(** ** [datetime.strptime] and [strftime] for the two formats used *)
(* ===================================================================== *)

Module Datetime.

Definition in_range (lo hi : ascii) (c : ascii) : bool :=
  (nat_of_ascii lo <=? nat_of_ascii c)%nat
  && (nat_of_ascii c <=? nat_of_ascii hi)%nat.

Definition one (a : ascii) (c : ascii) : bool := Ascii.eqb c a.

Definition digit : ascii -> bool := in_range "0" "9".

(** One alternative of a group: a sequence of character sets.  The result
    is the matched text and the rest. *)
Fixpoint match_seq (sets : list (ascii -> bool)) (s : string)
  : option (string * string) :=
  match sets with
  | [] => Some (EmptyString, s)
  | p :: sets' =>
      match s with
      | EmptyString => None
      | String c s' =>
          if p c then
            match match_seq sets' s' with
            | Some (g, r) => Some (String c g, r)
            | None => None
            end
          else None
      end
  end.

(** A group [a1|a2|...]: the alternatives are tried in order, and the
    matcher backtracks into the next one when the rest of the pattern,
    the continuation [k], fails. *)
Fixpoint match_alt {R : Type} (alts : list (list (ascii -> bool)))
  (s : string) (k : string -> string -> option R) : option R :=
  match alts with
  | [] => None
  | a :: alts' =>
      match match_seq a s with
      | Some (g, r) =>
          match k g r with
          | Some x => Some x
          | None => match_alt alts' s k
          end
      | None => match_alt alts' s k
      end
  end.

(** [%m] is [1[0-2]|0[1-9]|[1-9]]. *)
Definition re_m : list (list (ascii -> bool)) :=
  [ [one "1"; in_range "0" "2"];
    [one "0"; in_range "1" "9"];
    [in_range "1" "9"] ].

(** [%d] is [3[0-1]|[1-2]\d|0[1-9]|[1-9]| [1-9]]. *)
Definition re_d : list (list (ascii -> bool)) :=
  [ [one "3"; in_range "0" "1"];
    [in_range "1" "2"; digit];
    [one "0"; in_range "1" "9"];
    [in_range "1" "9"];
    [one " "; in_range "1" "9"] ].

(** [%Y] is [\d\d\d\d]. *)
Definition re_Y : list (list (ascii -> bool)) :=
  [ [digit; digit; digit; digit] ].

Definition re_slash : list (list (ascii -> bool)) := [ [one "/"] ].

(** [re.match] of the pattern of ["%m/%d/%Y"]: the groups [m], [d], [Y]
    and what is left of the string after the match. *)
Definition match_mdY (s : string)
  : option (string * string * string * string) :=
  match_alt re_m s (fun m r1 =>
  match_alt re_slash r1 (fun _ r2 =>
  match_alt re_d r2 (fun d r3 =>
  match_alt re_slash r3 (fun _ r4 =>
  match_alt re_Y r4 (fun y r5 => Some (m, d, y, r5)))))).

(** [int(s)] for a group of the pattern: digits after optional white
    space. *)
Fixpoint int_digits (acc : nat) (s : string) : nat :=
  match s with
  | EmptyString => acc
  | String c s' => int_digits (10 * acc + (nat_of_ascii c - 48)) s'
  end.

Definition int (s : string) : nat := int_digits 0 (strip s).

Definition is_leap (y : nat) : bool :=
  ((y mod 4 =? 0) && negb (y mod 100 =? 0))%nat || (y mod 400 =? 0)%nat.

Definition days_in_month (y m : nat) : nat :=
  match m with
  | 2 => if is_leap y then 29 else 28
  | 4 | 6 | 9 | 11 => 30
  | _ => 31
  end.

Record date : Type := mkdate { year : nat; month : nat; day : nat }.

(** The check of the [date] constructor. *)
Definition valid_date (y m d : nat) : bool :=
  ((1 <=? y) && (y <=? 9999) && (1 <=? m) && (m <=? 12)
   && (1 <=? d) && (d <=? days_in_month y m))%nat.

(** [datetime.strptime(s, "%m/%d/%Y")]: [ValueError] when the pattern
    does not match at the start of [s], when text remains after the
    match, or when the numbers are not a date. *)
Definition strptime_mdY (s : string) : result date :=
  match match_mdY s with
  | None => Raise ValueError
  | Some (m, d, y, rest) =>
      match rest with
      | EmptyString =>
          if valid_date (int y) (int m) (int d)
          then Ok (mkdate (int y) (int m) (int d))
          else Raise ValueError
      | String _ _ => Raise ValueError
      end
  end.

(** The decimal digit of [n] at the place of [10^k]. *)
Definition digit_at (k n : nat) : ascii :=
  ascii_of_nat (48 + (n / 10 ^ k) mod 10).

(** A number below 10000 in four digits, as the text of a date has its
    year. *)
Definition dec4 (n : nat) : string :=
  String (digit_at 3 n) (String (digit_at 2 n)
    (String (digit_at 1 n) (String (digit_at 0 n) EmptyString))).

(** [%m] and [%d]: two digits. *)
Definition dec2 (n : nat) : string :=
  String (digit_at 1 n) (String (digit_at 0 n) EmptyString).

(** [%Y] as the C library writes it: the year in decimal, without
    padding, so that a year below 1000 has fewer than four digits.  The
    years of a [date] go up to 9999. *)
Definition year_text (y : nat) : string :=
  if (y <? 10)%nat then String (digit_at 0 y) EmptyString
  else if (y <? 100)%nat then dec2 y
  else if (y <? 1000)%nat then String (digit_at 2 y) (dec2 y)
  else dec4 y.

(** [d.strftime("%Y-%m-%d")]: the year as [%Y] writes it, then the month
    and the day in two digits. *)
Definition strftime_Ymd (d : date) : string :=
  (year_text (year d) ++ "-" ++ dec2 (month d) ++ "-" ++ dec2 (day d))%string.



End Datetime.

Import Datetime.

(* ===================================================================== *)
(** ** The [csv] module: [DictWriter] with the default (excel) dialect *)
(* ===================================================================== *)

Module Csv.

Definition dquote : ascii := ascii_of_nat 34.
Definition dq : string := String dquote EmptyString.

(** The characters that force quotes under [QUOTE_MINIMAL]: the
    delimiter, the quote character and those of the line terminator. *)
Definition special (c : ascii) : bool :=
  Ascii.eqb c "," || Ascii.eqb c dquote
  || Ascii.eqb c (ascii_of_nat 13) || Ascii.eqb c (ascii_of_nat 10).

Fixpoint needs_quotes (s : string) : bool :=
  match s with
  | EmptyString => false
  | String c s' => special c || needs_quotes s'
  end.

(** One field as it is written: quote characters are doubled, and the
    field is quoted when it holds a special character. *)
Definition field (s : string) : string :=
  if needs_quotes s then (dq ++ replace dquote (dq ++ dq) s ++ dq)%string
  else s.

Definition lineterminator : string := (cr ++ newline)%string.

(** [writer.writerow(fields)]: the text of one line.  A row made of a
    single empty field is written as a pair of quotes. *)
Definition writer_writerow (fields : list string) : string :=
  match fields with
  | [EmptyString] => (dq ++ dq ++ lineterminator)%string
  | _ => (join "," (map field fields) ++ lineterminator)%string
  end.

(** What the writer makes of a cell value: [None] is the empty string. *)
Definition cell (v : option string) : string :=
  match v with
  | Some s => s
  | None => EmptyString
  end.

(** [DictWriter.writerow(rowdict)] with [restval=''] and
    [extrasaction='raise']: a key outside the field names is a
    [ValueError]; a field the row lacks is written as [restval]. *)
Definition writerow (fieldnames : list string) (rowdict : dict (option string))
  : result string :=
  if forallb (fun k => existsb (String.eqb k) fieldnames) (keys rowdict)
  then Ok (writer_writerow
             (map (fun k => match lookup k rowdict with
                            | Some v => cell v
                            | None => EmptyString
                            end) fieldnames))
  else Raise ValueError.

(** [DictWriter.writeheader()] is
    [writerow(dict(zip(fieldnames, fieldnames)))]. *)
Definition writeheader (fieldnames : list string) : result string :=
  writerow fieldnames
    (fold_left (fun d k => dict_set k (Some k) d) fieldnames []).

End Csv.

(* ===================================================================== *)
(** ** The [json] module: [json.dump(obj, out, indent=4)] *)
(* ===================================================================== *)

Module Json.

(** The values the program hands to [json.dump]. *)
#[warning="-register-all"] Inductive value : Type :=
| PyNone
| PyStr (s : string)
| PyList (l : list value)
| PyDict (d : list (string * value)).

Definition hex (n : nat) : ascii :=
  match n with
  | 0 => "0" | 1 => "1" | 2 => "2" | 3 => "3" | 4 => "4" | 5 => "5"
  | 6 => "6" | 7 => "7" | 8 => "8" | 9 => "9" | 10 => "a" | 11 => "b"
  | 12 => "c" | 13 => "d" | 14 => "e" | _ => "f"
  end%char.

(** [ESCAPE_DCT] and the [\uXXXX] fallback of [ensure_ascii]. *)
Definition escape (c : ascii) : string :=
  let n := nat_of_ascii c in
  if (n =? 34)%nat then String "\" Csv.dq
  else if (n =? 92)%nat then "\\"
  else if (n =? 10)%nat then "\n"
  else if (n =? 13)%nat then "\r"
  else if (n =? 9)%nat then "\t"
  else if (n =? 12)%nat then "\f"
  else if (n =? 8)%nat then "\b"
  else if ((32 <=? n) && (n <=? 126))%nat then String c EmptyString
  else ("\u00" ++ String (hex (n / 16)) (String (hex (n mod 16)) EmptyString))%string.

Fixpoint escape_all (s : string) : string :=
  match s with
  | EmptyString => EmptyString
  | String c s' => (escape c ++ escape_all s')%string
  end.

(** [encode_basestring_ascii] *)
Definition encode_str (s : string) : string :=
  (Csv.dq ++ escape_all s ++ Csv.dq)%string.

Fixpoint spaces (n : nat) : string :=
  match n with
  | O => EmptyString
  | S n' => String " " (spaces n')
  end.

(** ['\n' + ' ' * (indent * level)] with [indent = 4]. *)
Definition newline_indent (level : nat) : string :=
  (newline ++ spaces (4 * level))%string.

(** [_iterencode] at a nesting level, the chunks concatenated.  An empty
    list is [[]] and an empty dictionary [{}]; otherwise every item is on
    a line of its own, one level deeper, the items separated by a comma
    and the closing bracket back at the level of the opening one. *)
Fixpoint iterencode (level : nat) (o : value) : string :=
  match o with
  | PyNone => "null"
  | PyStr s => encode_str s
  | PyList [] => "[]"
  | PyList l =>
      ("[" ++ newline_indent (S level)
       ++ join ("," ++ newline_indent (S level))
               (map (iterencode (S level)) l)
       ++ newline_indent level ++ "]")%string
  | PyDict [] => "{}"
  | PyDict d =>
      ("{" ++ newline_indent (S level)
       ++ join ("," ++ newline_indent (S level))
               (map (fun kv => (encode_str (fst kv) ++ ": "
                                ++ iterencode (S level) (snd kv))%string) d)
       ++ newline_indent level ++ "}")%string
  end.

(** [json.dumps(o, indent=4)] *)
Definition dumps (o : value) : string := iterencode 0 o.

End Json.

(* ===================================================================== *)
(** ** [mayors.py] *)
(* ===================================================================== *)

(** A record is the dictionary [data]: a field is a string or [None]
    ([element.string] may be [None]); a field that was never assigned has
    no key. *)
Definition record : Type := dict (option string).

(** The [logging] calls of the program: the level and the message. *)
Inductive level : Type := INFO | ERROR.

Definition log_record : Type := (level * string)%type.

(** A computation that logs and then returns or raises. *)
Definition logged (A : Type) : Type := (list log_record * result A)%type.

Definition ret {A : Type} (a : A) : logged A := ([], Ok a).

Definition raise {A : Type} (e : exn) : logged A := ([], Raise e).

Definition logging (lv : level) (msg : string) : logged unit :=
  ([(lv, msg)], Ok tt).

Definition lbind {A B : Type} (m : logged A) (f : A -> logged B) : logged B :=
  match m with
  | (l, Ok a) => let (l', r) := f a in (l ++ l', r)
  | (l, Raise e) => (l, Raise e)
  end.

Notation "m >> k" := (lbind m (fun _ => k))
  (at level 62, right associativity) : py_scope.

(** [CSV_FIELDS] (lines 22-24) *)
Definition CSV_FIELDS : list string :=
  split_ws (newline
            ++ "    name email phone bio_url img_url city state population"
            ++ newline
            ++ "    city_site_url next_election")%string.

(** [parse_phone] (lines 26-29).  The argument is [item.string], a string
    or [None]; both [None] and the empty string are falsy and returned
    as they are. *)
Definition parse_phone (p : option string) : option string :=
  match p with
  | None => None
  | Some EmptyString => Some EmptyString
  | Some s =>
      Some (replace " " "-" (replace ")" EmptyString
                               (replace "(" EmptyString s)))
  end.

(** The dictionary display of lines 59-65, whose entries are evaluated in
    order. *)
Definition common_fields (items : list node) : result record :=
  i1 <- getitem items 1 ;;
  img_url <- getattr i1 "src" ;;
  i2 <- getitem items 2 ;;
  i3 <- getitem items 3 ;;
  city <- split_item i3 "," 0 ;;
  i3' <- getitem items 3 ;;
  state <- split_item i3' "," 1 ;;
  Ok [ ("img_url", Some img_url);
       ("name", node_string i2);
       ("city", Some (strip city));
       ("state", Some (strip state)) ].

(** Lines 71-72 *)
Definition match_population (data : record) (item : node) : result record :=
  if py_in "Population" item then
    p <- split_item item ":" 1 ;;
    Ok (dict_set "population" (Some (replace "," EmptyString p)) data)
  else Ok data.

(** Lines 73-76 *)
Definition match_next_election (data : record) (item : node)
  : result record :=
  if py_in "Next Election Date" item then
    p <- split_item item ":" 1 ;;
    parsed_next_election <- strptime_mdY (strip p) ;;
    Ok (dict_set "next_election" (Some (strftime_Ymd parsed_next_election))
          data)
  else Ok data.

(** Lines 79-87.  [item.get('href')] is [None] when the link has no
    target, and [x in None] raises [TypeError]. *)
Definition match_link (data : record) (item : node) : result record :=
  if named "a" item then
    if py_in "Web Site" item then
      href <- getattr item "href" ;;
      Ok (dict_set "city_site_url" (Some href) data)
    else if py_in "Bio" item then
      href <- getattr item "href" ;;
      Ok (dict_set "bio_url" (Some href) data)
    else
      match get item "href" with
      | None => Raise TypeError
      | Some href =>
          if contains "tel:" href then
            Ok (dict_set "phone" (parse_phone (node_string item)) data)
          else if contains "mailto:" href then
            Ok (dict_set "email" (node_string item) data)
          else Ok data
      end
  else Ok data.

(** The body of the loop of lines 70-87 for one item. *)
Definition match_item (data : record) (item : node) : result record :=
  data1 <- match_population data item ;;
  data2 <- match_next_election data1 item ;;
  match_link data2 item.

(** The loop of lines 70-87. *)
Fixpoint match_items (data : record) (items : list node) : result record :=
  match items with
  | [] => Ok data
  | item :: items' =>
      data' <- match_item data item ;;
      match_items data' items'
  end.

(** [mayor_ul.contents] once the line breaks are gone (lines 53-56). *)
Definition items_of (mayor_ul : node) : list node :=
  contents (decompose_br mayor_ul).

Definition unable : string := "unable to get common fields from".

(** The loop of lines 52-88 from a given [parsed_list].  [except
    IndexError] catches that exception alone: the list is logged and
    skipped.  Any other exception leaves the function. *)
Fixpoint parse_lists (mayor_list : list node) (parsed_list : list record)
  : logged (list record) :=
  match mayor_list with
  | [] => ret parsed_list
  | mayor_ul :: rest =>
      let items := items_of mayor_ul in
      match common_fields items with
      | Raise IndexError =>
          logging ERROR unable >> parse_lists rest parsed_list
      | Raise e => raise e
      | Ok data =>
          match match_items data items with
          | Raise e => raise e
          | Ok data' => parse_lists rest (parsed_list ++ [data'])
          end
      end
  end.

(** What [requests.post] followed by [raise_for_status] and by
    [BeautifulSoup(response.text, 'html.parser')] gives: an [HTTPError]
    or the parsed document. *)
Inductive response : Type :=
| Failure
| Page (page : node).

(** The body of [get_mayors_for_state] from line 44 on. *)
Definition mayors_of_page (state : string) (page : node)
  : logged (list record) :=
  match select_one_div_post_content page with
  | None => raise AttributeError
  | Some content =>
      let mayor_list := find_all "ul" content in
      match mayor_list with
      | [] => logging INFO ("no mayors found for " ++ state)%string >> ret []
      | _ =>
          logging INFO ("found " ++ str_of_nat (List.length mayor_list)
                        ++ " mayors for " ++ state)%string
          >> parse_lists mayor_list []
      end
  end.

(** The generator [get_mayors] as seen by its consumer: the records
    yielded, in order, and the exception that ended it, if any. *)
Record stream : Type := mkstream {
  yielded : list record;
  raised : option exn
}.

(** The serializers: the text written to [out] and the exception that
    left the function, if any. *)
Definition written : Type := (string * option exn)%type.

(** The rows of [write_to_csv] (lines 100-101) after a given text. *)
Fixpoint write_rows (out : string) (mayors : list record)
  (raised : option exn) : written :=
  match mayors with
  | [] => (out, raised)
  | mayor :: rest =>
      match Csv.writerow CSV_FIELDS mayor with
      | Ok line => write_rows (out ++ line)%string rest raised
      | Raise e => (out, Some e)
      end
  end.

(** [write_to_csv] (lines 97-101): the header is written before the
    generator is first asked for a record. *)
Definition write_to_csv (mayors : stream) : written :=
  match Csv.writeheader CSV_FIELDS with
  | Ok header => write_rows header (yielded mayors) (raised mayors)
  | Raise e => (EmptyString, Some e)
  end.

Definition py_value (v : option string) : Json.value :=
  match v with
  | None => Json.PyNone
  | Some s => Json.PyStr s
  end.

Definition py_record (r : record) : Json.value :=
  Json.PyDict (map (fun kv => (fst kv, py_value (snd kv))) r).

(** [write_to_json] (lines 104-105): [list(mayors)] runs the generator to
    its end before anything is written. *)
Definition write_to_json (mayors : stream) : written :=
  match raised mayors with
  | Some e => (EmptyString, Some e)
  | None => (Json.dumps (Json.PyList (map py_record (yielded mayors))), None)
  end.

Inductive format : Type := csv | json.

Definition writer (f : format) : stream -> written :=
  match f with
  | csv => write_to_csv
  | json => write_to_json
  end.

(** The exit status of the interpreter: zero unless an exception reached
    the top level. *)
Definition exit_status (e : option exn) : nat :=
  match e with
  | None => 0
  | Some _ => 1
  end.

Section Site.

(** The answer of the site to the search for a state. *)
Variable post : string -> response.

(** [get_mayors_for_state] (lines 31-89) *)
Definition get_mayors_for_state (state : string) : logged (list record) :=
  match post state with
  | Failure => raise HTTPError
  | Page page => mayors_of_page state page
  end.

(** [get_mayors] (lines 91-94) *)
Fixpoint get_mayors (states : list string) : list log_record * stream :=
  match states with
  | [] => ([], mkstream [] None)
  | state :: rest =>
      match get_mayors_for_state state with
      | (l, Raise e) => (l, mkstream [] (Some e))
      | (l, Ok mayors) =>
          let (l', s) := get_mayors rest in
          (l ++ l', mkstream (mayors ++ yielded s) (raised s))
      end
  end.

(** What a run of the program shows. *)
Record run : Type := mkrun {
  output : string;
  log : list log_record;
  status : nat
}.

(** The main block (lines 139-142) for a format and a list of states. *)
Definition main (f : format) (states : list string) : run :=
  let (l, mayors) := get_mayors states in
  let (out, e) := writer f mayors in
  mkrun out l (exit_status e).

End Site.

(* ===================================================================== *)
(** ** The command line *)
(* ===================================================================== *)

(** [s.rfind(c)] for a character: the last index, or [None] for [-1]. *)
Fixpoint rfind (c : ascii) (s : string) : option nat :=
  match s with
  | EmptyString => None
  | String x s' =>
      match rfind c s' with
      | Some i => Some (S i)
      | None => if Ascii.eqb x c then Some 0 else None
      end
  end.

(** Some character of the string is not a dot. *)
Fixpoint not_all_dots (s : string) : bool :=
  match s with
  | EmptyString => false
  | String c s' => negb (Ascii.eqb c ".") || not_all_dots s'
  end.

(** [os.path.splitext] on a POSIX path: the path is cut at its last dot
    when that dot stands after the last slash and some character between
    the slash and the dot is not a dot; otherwise the extension is
    empty. *)
Definition splitext (p : string) : string * string :=
  match rfind "." p with
  | None => (p, EmptyString)
  | Some dotIndex =>
      let filenameIndex :=
        match rfind "/" p with
        | Some sepIndex => S sepIndex
        | None => 0
        end in
      if (filenameIndex <=? dotIndex)%nat
         && not_all_dots (substring filenameIndex (dotIndex - filenameIndex) p)
      then (substring 0 dotIndex p,
            substring dotIndex (String.length p - dotIndex) p)
      else (p, EmptyString)
  end.

(** [s[1:]] *)
Definition tail (s : string) : string :=
  match s with
  | EmptyString => EmptyString
  | String _ s' => s'
  end.

(** What [parser.parse_args()] returns: the name of the file opened for
    [out] (["<stdout>"] for [-]), the [--format] option, which the
    parser restricts to its two choices, the states of [--state] when
    the option is given (possibly none), and the [-v] flag.  The flag
    only sets the level at which the handler shows the records; the log
    of the model holds the [logging] calls whatever the level. *)
Record namespace : Type := mknamespace {
  out_name : string;
  format_option : option format;
  state_option : option (list string);
  verbose : bool
}.

Definition format_name (f : format) : string :=
  match f with
  | csv => "csv"
  | json => "json"
  end.

(** The dictionary of line 132 indexed by a format name: a name that is
    not a key raises [KeyError]. *)
Definition writer_named (name : string) : result format :=
  if (name =? "csv")%string then Ok csv
  else if (name =? "json")%string then Ok json
  else Raise KeyError.

(** The format of lines 123-130: the option when it is given, else the
    extension of the output name without its dot, else ["csv"] for the
    standard output. *)
Definition guessed_format (ns : namespace) : string :=
  match format_option ns with
  | Some f => format_name f
  | None =>
      if (out_name ns =? "<stdout>")%string then "csv"
      else tail (snd (splitext (out_name ns)))
  end.

Section CommandLine.

Variable post : string -> response.

(** [ALL_STATES] of the module [states], which the source imports. *)
Variable ALL_STATES : list string.

(** [parse_arguments] (lines 108-137): the writer and the states. *)
Definition parse_arguments (ns : namespace) : result (format * list string) :=
  w <- writer_named (guessed_format ns) ;;
  Ok (w, match state_option ns with
         | Some states => states
         | None => ALL_STATES
         end).

(** The program: [parse_arguments], then the main block.  When the
    format is not recognized nothing is requested and nothing written. *)
Definition program (ns : namespace) : run :=
  match parse_arguments ns with
  | Ok (w, states) => main post w states
  | Raise e => mkrun EmptyString [] (exit_status (Some e))
  end.

End CommandLine.

(* ===================================================================== *)
(** ** The wording of the specification, for comparison with the code *)
(* ===================================================================== *)

(** The text after the first occurrence of a character, when there is
    one. *)
Fixpoint after_first (sep : ascii) (s : string) : option string :=
  match s with
  | EmptyString => None
  | String c s' => if Ascii.eqb c sep then Some s' else after_first sep s'
  end.

(** The text before the first occurrence of a character (all of it when
    there is none). *)
Fixpoint before_first (sep : ascii) (s : string) : string :=
  match s with
  | EmptyString => EmptyString
  | String c s' =>
      if Ascii.eqb c sep then EmptyString else String c (before_first sep s')
  end.

(** A character occurs in a string. *)
Fixpoint has_char (ch : ascii) (s : string) : bool :=
  match s with
  | EmptyString => false
  | String c s' => Ascii.eqb c ch || has_char ch s'
  end.

(** Phone normalization, character by character: a parenthesis goes, a
    space becomes a hyphen, anything else stays. *)
Definition normalize_char (c : ascii) : string :=
  if Ascii.eqb c "(" || Ascii.eqb c ")" then EmptyString
  else if Ascii.eqb c " " then "-"
  else String c EmptyString.

Fixpoint normalize_phone (s : string) : string :=
  match s with
  | EmptyString => EmptyString
  | String c s' => (normalize_char c ++ normalize_phone s')%string
  end.

(** The ten field names, in the order the specification lists them. *)
Definition field_names : list string :=
  [ "name"; "email"; "phone"; "bio_url"; "img_url"; "city"; "state";
    "population"; "city_site_url"; "next_election" ].

(** The header row of the tabular output. *)
Definition header_row : string :=
  ("name,email,phone,bio_url,img_url,city,state,population,city_site_url,next_election"
   ++ cr ++ newline)%string.

(** The ten cells of a record: the value of each field, empty when the
    record lacks the field (or holds [None]). *)
Definition cells (r : record) : list string :=
  map (fun k => match lookup k r with
                | Some (Some v) => v
                | _ => EmptyString
                end) field_names.

(** One row of the tabular output. *)
Definition csv_row (r : record) : string :=
  (join "," (map Csv.field (cells r)) ++ cr ++ newline)%string.

Fixpoint concat_rows (rows : list string) : string :=
  match rows with
  | [] => EmptyString
  | x :: rows' => (x ++ concat_rows rows')%string
  end.

(** One member of an object of the structured output, at eight spaces. *)
Definition json_member (kv : string * option string) : string :=
  (Json.encode_str (fst kv) ++ ": "
   ++ match snd kv with
      | Some v => Json.encode_str v
      | None => "null"
      end)%string.

(** One object of the structured output: its members are the entries of
    the record, one per line at eight spaces, between braces of which the
    closing one is at four spaces. *)
Definition json_object (r : record) : string :=
  match r with
  | [] => "{}"
  | _ => ("{" ++ newline ++ "        "
          ++ join ("," ++ newline ++ "        ") (map json_member r)
          ++ newline ++ "    " ++ "}")%string
  end.

(** The structured output: the objects in order, each at four spaces,
    between brackets. *)
Definition json_array (rs : list record) : string :=
  match rs with
  | [] => "[]"
  | _ => ("[" ++ newline ++ "    "
          ++ join ("," ++ newline ++ "    ") (map json_object rs)
          ++ newline ++ "]")%string
  end.



(** The shape [-MM-DD]. *)
Definition month_day_shape (s : string) : bool :=
  match s with
  | String h1 (String m1 (String m2 (String h2
      (String d1 (String d2 EmptyString))))) =>
      one "-" h1 && digit m1 && digit m2 && one "-" h2 && digit d1 && digit d2
  | _ => false
  end.

(** One to four digits followed by [-MM-DD]. *)
Definition election_shape (s : string) : bool :=
  match s with
  | String a r1 =>
      digit a
      && (month_day_shape r1
          || match r1 with
             | String b r2 =>
                 digit b
                 && (month_day_shape r2
                     || match r2 with
                        | String c r3 =>
                            digit c
                            && (month_day_shape r3
                                || match r3 with
                                   | String d r4 => digit d && month_day_shape r4
                                   | EmptyString => false
                                   end)
                        | EmptyString => false
                        end)
             | EmptyString => false
             end)
  | EmptyString => false
  end.

(** White space only. *)
Fixpoint all_space (s : string) : bool :=
  match s with
  | EmptyString => true
  | String c s' => isspace c && all_space s'
  end.

(** The text starts, or ends, with white space. *)
Definition first_space (s : string) : bool :=
  match s with
  | EmptyString => false
  | String c _ => isspace c
  end.

Fixpoint last_space (s : string) : bool :=
  match s with
  | EmptyString => false
  | String c s' =>
      match s' with
      | EmptyString => isspace c
      | String _ _ => last_space s'
      end
  end.

(** [r] is [t] trimmed: [t] is [r] between two runs of white space, and
    [r] neither starts nor ends with white space. *)
Definition trimmed_of (t r : string) : Prop :=
  exists a b,
    t = (a ++ r ++ b)%string
    /\ all_space a = true /\ all_space b = true
    /\ first_space r = false /\ last_space r = false.


(** A record whose keys are all field names. *)
Definition known_keys (r : record) : Prop :=
  forall k, In k (keys r) -> In k field_names.

(** Induction on a tree whose hypothesis covers all the children. *)
Fixpoint node_induction (P : node -> Prop)
  (Hs : forall s, P (NavigableString s))
  (Ht : forall nm a cs, Forall P cs -> P (Tag nm a cs))
  (n : node) : P n :=
  match n with
  | NavigableString s => Hs s
  | Tag nm a cs =>
      Ht nm a cs
        ((fix all (l : list node) : Forall P l :=
            match l with
            | [] => Forall_nil P
            | c :: l' => Forall_cons c (node_induction P Hs Ht c) (all l')
            end) cs)
  end.

(** What the loop of lines 70-87 can assign: the key and the value. *)
Definition assigned (k : string) (v : option string) : Prop :=
  (k = "population" /\ exists p, v = Some (replace "," EmptyString p))
  \/ (k = "next_election" /\ exists d, v = Some (strftime_Ymd d))
  \/ (k = "city_site_url" /\ exists h, v = Some h)
  \/ (k = "bio_url" /\ exists h, v = Some h)
  \/ (k = "phone" /\ exists x, v = parse_phone x)
  \/ (k = "email").

(** A dictionary obtained from another by such assignments. *)
Inductive updates (d : record) : record -> Prop :=
| updates_none : updates d d
| updates_set (k : string) (v : option string) (d' : record) :
    updates d d' -> assigned k v -> updates d (dict_set k v d').

(** The dictionary display of lines 59-65 with some city and state. *)
Definition common (r : record) : Prop :=
  exists img nm c s,
    r = [ ("img_url", Some img); ("name", nm);
          ("city", Some (strip c)); ("state", Some (strip s)) ]
    /\ has_char "," c = false /\ has_char "," s = false.

(** A record of the extraction: the dictionary display, then
    assignments of the loop. *)
Definition extracted (r : record) : Prop :=
  exists d, common d /\ updates d r.

(** What a field of an extracted record can hold. *)
Definition field_ok (k : string) (v : option string) : Prop :=
  (k = "img_url" -> exists s, v = Some s)
  /\ (k = "city" \/ k = "state" ->
      exists s, v = Some s /\ has_char "," s = false
                /\ first_space s = false /\ last_space s = false)
  /\ (k = "population" -> exists s, v = Some s /\ has_char "," s = false)
  /\ (k = "next_election" ->
      exists s, v = Some s /\ election_shape s = true)
  /\ (k = "city_site_url" \/ k = "bio_url" -> exists s, v = Some s)
  /\ (k = "phone" ->
      v = None
      \/ exists s, v = Some s /\ has_char "(" s = false
                   /\ has_char ")" s = false /\ has_char " " s = false).

(** A character of the output of [json.dump] with [ensure_ascii]: a line
    feed or a printable ASCII character. *)
Definition ascii_text (c : ascii) : bool :=
  (nat_of_ascii c =? 10)%nat
  || ((32 <=? nat_of_ascii c)%nat && (nat_of_ascii c <=? 126)%nat).

Fixpoint all_chars (p : ascii -> bool) (s : string) : bool :=
  match s with
  | EmptyString => true
  | String c s' => p c && all_chars p s'
  end.

(** The entries of the log that [parse_lists] adds. *)
Definition skipped (k : nat) : list log_record := repeat (ERROR, unable) k.


Ltac field_name := unfold field_names; simpl; tauto.

(** Replaces [dec2] of a numeral by its two digits. *)
Ltac eval_dec2 :=
  repeat match goal with
         | |- context [dec2 ?n] =>
             let v := eval vm_compute in (dec2 n) in change (dec2 n) with v
         end.

(* ===================================================================== *)
(** ** Sample pages *)
(* ===================================================================== *)

Module Sample.

Definition br : node := Tag "br" [] [].

Definition nl : node := NavigableString newline.

Definition img (src : string) : node :=
  Tag "img" [("src", src); ("class", "alignright")] [].

Definition link (href text : string) : node :=
  Tag "a" [("href", href)] [NavigableString text].

(** A mayor's card as the site writes it: the fields on lines separated
    by [br]. *)
Definition card (fields : list node) : node :=
  Tag "ul" [] (nl :: fields ++ [nl]).

Definition springfield : node :=
  card [ img "https://example.org/langfelder.jpg"; br;
         Tag "b" [] [NavigableString "Jim Langfelder"]; br;
         NavigableString "Springfield, Illinois"; br;
         NavigableString "Population: 116,250"; br;
         link "https://www.springfield.il.us" "Web Site"; br;
         NavigableString "Next Election Date: 11/5/2024"; br;
         link "https://example.org/bio" "Bio"; br;
         NavigableString "Phone: "; link "tel:5551234567" "(555) 123-4567";
         br;
         NavigableString "Email: ";
         link "mailto:mayor@springfield.il.us" "mayor@springfield.il.us" ].

Definition peoria : node :=
  card [ img "https://example.org/ali.jpg"; br;
         Tag "b" [] [NavigableString "Rita Ali"]; br;
         NavigableString "Peoria, Illinois"; br;
         NavigableString "Population: 113,150" ].

(** A card without its photo: the name is the first field. *)
Definition no_photo : node :=
  card [ Tag "b" [] [NavigableString "Dan Brady"]; br;
         NavigableString "Bloomington, Illinois"; br;
         NavigableString "Population: 78,680" ].

(** A card whose election date is not a date. *)
Definition bad_date : node :=
  card [ img "https://example.org/x.jpg"; br;
         Tag "b" [] [NavigableString "Tom Crosby"]; br;
         NavigableString "Rockford, Illinois"; br;
         NavigableString "Next Election Date: TBD" ].

(** A card with a link that has no target. *)
Definition bare_link : node :=
  card [ img "https://example.org/y.jpg"; br;
         Tag "b" [] [NavigableString "Ann Lee"]; br;
         NavigableString "Joliet, Illinois"; br;
         Tag "a" [("class", "more")] [NavigableString "Contact"] ].

(** A card of a city whose name holds the word of the population
    line. *)
Definition population_city : node :=
  card [ img "https://example.org/z.jpg"; br;
         Tag "b" [] [NavigableString "Pat Moore"]; br;
         NavigableString "Population Center, Ohio"; br;
         NavigableString "Population: 1,204" ].

(** A document whose content region holds the given elements. *)
Definition document (inside : list node) : node :=
  Tag "[document]" []
    [ Tag "html" []
        [ Tag "body" []
            [ Tag "div" [("id", "header")] [NavigableString "US Mayors"];
              Tag "div" [("class", "post-content clearfix")] inside ] ] ].

(** A document without the content region. *)
Definition no_region : node :=
  Tag "[document]" []
    [ Tag "html" []
        [ Tag "body" []
            [ Tag "div" [("class", "error")]
                [NavigableString "Service unavailable"] ] ] ].

Definition site (page : node) (state : string) : response := Page page.

Definition springfield_record : record :=
  [ ("img_url", Some "https://example.org/langfelder.jpg");
    ("name", Some "Jim Langfelder");
    ("city", Some "Springfield");
    ("state", Some "Illinois");
    ("population", Some " 116250");
    ("city_site_url", Some "https://www.springfield.il.us");
    ("next_election", Some "2024-11-05");
    ("bio_url", Some "https://example.org/bio");
    ("phone", Some "555-123-4567");
    ("email", Some "mayor@springfield.il.us") ].

Definition peoria_record : record :=
  [ ("img_url", Some "https://example.org/ali.jpg");
    ("name", Some "Rita Ali");
    ("city", Some "Peoria");
    ("state", Some "Illinois");
    ("population", Some " 113150") ].

End Sample.

(* ===================================================================== *)
(** ** Checks of the model on concrete inputs *)
(* ===================================================================== *)

Example CSV_FIELDS_value : CSV_FIELDS = field_names.
Proof. reflexivity. Qed.

Example strip_example : strip (" ab c  " ++ newline) = "ab c".
Proof. reflexivity. Qed.

Example split_example :
  split "," "a,b,,c" = ["a"; "b"; EmptyString; "c"].
Proof. reflexivity. Qed.

Example strptime_examples :
  map strptime_mdY ["11/5/2024"; "11/ 5/2024"; "02/29/2024"; "1/1/0999"]
  = [Ok (mkdate 2024 11 5); Ok (mkdate 2024 11 5); Ok (mkdate 2024 2 29);
     Ok (mkdate 999 1 1)]
  /\ map strptime_mdY [" 11/5/2024"; "2/30/2024"; "2/29/2023"; "13/1/2024";
                       "11/5/20245"; "11/5/999"; "1/1/0000"; "TBD"]
     = repeat (Raise ValueError) 8.
Proof. split; reflexivity. Qed.

(** [in] on a tag looks for a child equal to the keyword, [in] on a
    string for the keyword inside it. *)
Example py_in_examples :
  py_in "Bio" (Sample.link "https://example.org/bio" "Bio") = true
  /\ py_in "Bio" (Sample.link "https://example.org/bio" "Biography") = false
  /\ py_in "Bio" (NavigableString "Biography") = true.
Proof. repeat split. Qed.

Example items_of_peoria :
  items_of Sample.peoria
  = [ Sample.nl; Sample.img "https://example.org/ali.jpg";
      Tag "b" [] [NavigableString "Rita Ali"];
      NavigableString "Peoria, Illinois";
      NavigableString "Population: 113,150"; Sample.nl ].
Proof. reflexivity. Qed.

Example select_one_examples :
  select_one_div_post_content Sample.no_region = None
  /\ select_one_div_post_content (Sample.document [Sample.peoria])
     = Some (Tag "div" [("class", "post-content clearfix")] [Sample.peoria]).
Proof. split; reflexivity. Qed.

Example springfield_parsed :
  mayors_of_page "Illinois" (Sample.document [Sample.springfield; Sample.peoria])
  = ([(INFO, "found 2 mayors for Illinois")],
     Ok [Sample.springfield_record; Sample.peoria_record]).
Proof. reflexivity. Qed.

Example csv_of_sample :
  main (Sample.site (Sample.document [Sample.peoria])) csv ["Illinois"]
  = mkrun (header_row
           ++ "Rita Ali,,,,https://example.org/ali.jpg,Peoria,Illinois, 113150,,"
           ++ cr ++ newline)
          [(INFO, "found 1 mayors for Illinois")] 0.
Proof. reflexivity. Qed.

(** [%Y] does not pad a year below 1000. *)
Example strftime_short_years :
  map strftime_Ymd
    [mkdate 2024 11 5; mkdate 999 1 1; mkdate 5 1 1; mkdate 45 12 31]
  = ["2024-11-05"; "999-01-01"; "5-01-01"; "45-12-31"].
Proof. reflexivity. Qed.

(* ===================================================================== *)
(** ** Facts about the built-ins *)
(* ===================================================================== *)

Section StringFacts.

Lemma prefix_empty (s : string) : prefix EmptyString s = true.
Proof. destruct s; reflexivity. Qed.

Lemma append_assoc (a b c : string) :
  ((a ++ b) ++ c)%string = (a ++ (b ++ c))%string.
Proof. induction a as [|x a IH]; simpl; [|rewrite IH]; reflexivity. Qed.

Lemma append_empty_r (a : string) : (a ++ EmptyString)%string = a.
Proof. induction a as [|x a IH]; simpl; [|rewrite IH]; reflexivity. Qed.

Lemma contains_char (ch : ascii) (s : string) :
  contains (String ch EmptyString) s = has_char ch s.
Proof.
  induction s as [|c s IH]; simpl; [reflexivity|].
  rewrite IH. destruct (ascii_dec ch c) as [->|Hne].
  - rewrite prefix_empty, Ascii.eqb_refl. reflexivity.
  - destruct (Ascii.eqb_spec c ch) as [->|_]; [contradiction|reflexivity].
Qed.

Lemma has_char_app (ch : ascii) (a b : string) :
  has_char ch (a ++ b) = has_char ch a || has_char ch b.
Proof.
  induction a as [|c a IH]; simpl; [reflexivity|].
  rewrite IH, orb_assoc. reflexivity.
Qed.

Lemma split_not_nil (sep : ascii) (s : string) : split sep s <> [].
Proof.
  induction s as [|c s IH]; simpl; [discriminate|].
  destruct (Ascii.eqb c sep); [discriminate|].
  destruct (split sep s); [contradiction|discriminate].
Qed.

(** A string without the separator is a single piece. *)
Lemma split_without (sep : ascii) (s : string) :
  has_char sep s = false -> split sep s = [s].
Proof.
  induction s as [|c s IH]; simpl; intros H; [reflexivity|].
  apply orb_false_iff in H as [Hc Hs].
  rewrite Hc, (IH Hs). reflexivity.
Qed.

(** The first piece ends at the first separator. *)
Lemma split_at_first (sep : ascii) (a r : string) :
  has_char sep a = false ->
  split sep (a ++ String sep r) = a :: split sep r.
Proof.
  induction a as [|c a IH]; simpl; intros H.
  - rewrite Ascii.eqb_refl. reflexivity.
  - apply orb_false_iff in H as [Hc Ha].
    rewrite Hc, (IH Ha). reflexivity.
Qed.

(** The pieces of a string in terms of its first separator. *)
Lemma split_first (sep : ascii) (s : string) :
  split sep s =
  before_first sep s ::
  match after_first sep s with
  | Some t => split sep t
  | None => []
  end.
Proof.
  induction s as [|c s IH]; simpl; [reflexivity|].
  destruct (Ascii.eqb c sep); [reflexivity|].
  rewrite IH. reflexivity.
Qed.

Lemma lstrip_has_char (ch : ascii) (s : string) :
  isspace ch = false -> has_char ch (lstrip s) = has_char ch s.
Proof.
  intros Hch. induction s as [|c s IH]; simpl; [reflexivity|].
  destruct (isspace c) eqn:Hc; simpl; [|reflexivity].
  rewrite IH. destruct (Ascii.eqb_spec c ch) as [->|_]; [congruence|reflexivity].
Qed.

Lemma rstrip_has_char (ch : ascii) (s : string) :
  isspace ch = false -> has_char ch (rstrip s) = has_char ch s.
Proof.
  intros Hch. induction s as [|c s IH]; simpl; [reflexivity|].
  destruct (rstrip s) as [|c' r] eqn:Hr.
  - simpl in IH. rewrite <- IH, orb_false_r.
    destruct (isspace c) eqn:Hc; simpl.
    + destruct (Ascii.eqb_spec c ch) as [->|_]; [congruence|reflexivity].
    + rewrite orb_false_r. reflexivity.
  - simpl. simpl in IH. rewrite IH. reflexivity.
Qed.

(** Stripping white space keeps every other character. *)
Lemma strip_has_char (ch : ascii) (s : string) :
  isspace ch = false -> has_char ch (strip s) = has_char ch s.
Proof.
  intros H. unfold strip.
  rewrite (rstrip_has_char _ _ H), (lstrip_has_char _ _ H). reflexivity.
Qed.

End StringFacts.

(** The three replacements of [parse_phone] are the normalization of the
    specification. *)
Lemma replace_chain_normalize (s : string) :
  replace " " "-" (replace ")" EmptyString (replace "(" EmptyString s))
  = normalize_phone s.
Proof.
  induction s as [|c s IH]; simpl; [reflexivity|].
  unfold normalize_char.
  destruct (Ascii.eqb_spec c "(") as [->|H1]; simpl; [exact IH|].
  destruct (Ascii.eqb_spec c ")") as [->|H2]; simpl; [exact IH|].
  destruct (Ascii.eqb_spec c " ") as [->|H3]; simpl; rewrite IH; reflexivity.
Qed.

Lemma normalize_phone_clean (ch : ascii) (s : string) :
  ch = "("%char \/ ch = ")"%char \/ ch = " "%char ->
  has_char ch (normalize_phone s) = false.
Proof.
  intros Hch. induction s as [|c s IH]; simpl; [reflexivity|].
  rewrite has_char_app, IH, orb_false_r. unfold normalize_char.
  destruct (Ascii.eqb_spec c "(") as [->|H1]; simpl; [reflexivity|].
  destruct (Ascii.eqb_spec c ")") as [->|H2]; simpl; [reflexivity|].
  destruct (Ascii.eqb_spec c " ") as [->|H3]; simpl.
  - destruct Hch as [->|[->| ->]]; reflexivity.
  - rewrite orb_false_r. apply Ascii.eqb_neq.
    destruct Hch as [->|[->| ->]]; assumption.
Qed.

(* --------------------------------------------------------------------- *)
(** *** The date pattern *)













(* --------------------------------------------------------------------- *)
(** *** Dictionaries and dates *)

Lemma lookup_dict_set {V : Type} (k : string) (v : V) (d : dict V) :
  lookup k (dict_set k v d) = Some v.
Proof.
  induction d as [|[k' v'] d IH]; simpl.
  - rewrite String.eqb_refl. reflexivity.
  - destruct (String.eqb_spec k' k) as [->|Hne]; simpl.
    + rewrite String.eqb_refl. reflexivity.
    + destruct (String.eqb_spec k' k); [contradiction|exact IH].
Qed.

Lemma digit_at_digit (k n : nat) : digit (digit_at k n) = true.
Proof.
  unfold digit, in_range, digit_at.
  assert (H : (n / 10 ^ k) mod 10 < 10) by (apply Nat.mod_upper_bound; lia).
  rewrite nat_ascii_embedding by lia.
  change (nat_of_ascii "0") with 48. change (nat_of_ascii "9") with 57.
  apply andb_true_iff. split; apply Nat.leb_le; lia.
Qed.

Lemma year_text_full (y : nat) : 1000 <= y -> year_text y = dec4 y.
Proof.
  intros H. unfold year_text.
  replace (y <? 10)%nat with false by (symmetry; apply Nat.ltb_ge; lia).
  replace (y <? 100)%nat with false by (symmetry; apply Nat.ltb_ge; lia).
  replace (y <? 1000)%nat with false by (symmetry; apply Nat.ltb_ge; lia).
  reflexivity.
Qed.


(** For every year it is one to four digits followed by [-MM-DD]. *)
Lemma strftime_Ymd_election (d : date) :
  election_shape (strftime_Ymd d) = true.
Proof.
  unfold strftime_Ymd, year_text.
  destruct (year d <? 10)%nat; [|destruct (year d <? 100)%nat;
                                  [|destruct (year d <? 1000)%nat]];
    unfold dec4, dec2; cbn -[digit_at digit];
    rewrite !digit_at_digit; reflexivity.
Qed.

(* --------------------------------------------------------------------- *)
(** *** How an exception leaves the loops *)

Lemma strptime_mdY_cases (s : string) :
  (exists dt, strptime_mdY s = Ok dt) \/ strptime_mdY s = Raise ValueError.
Proof.
  unfold strptime_mdY.
  destruct (match_mdY s) as [[[[m d] y] rest]|]; [|right; reflexivity].
  destruct rest; [|right; reflexivity].
  destruct (valid_date (int y) (int m) (int d));
    [left; eexists; reflexivity|right; reflexivity].
Qed.

(** An item on which the loop body always raises makes the loop over the
    items raise. *)
Lemma match_items_raises (item : node) (items : list node) :
  In item items ->
  (forall data, exists e, match_item data item = Raise e) ->
  forall data, exists e, match_items data items = Raise e.
Proof.
  intros Hin Hitem. induction items as [|x items IH]; [contradiction|].
  intros data. simpl.
  destruct (match_item data x) as [data'|e] eqn:Hx; simpl.
  - destruct Hin as [->|Hin].
    + destruct (Hitem data) as [e He]. congruence.
    + apply (IH Hin).
  - exists e. reflexivity.
Qed.

(** A list that the handler of line 66 does not skip and whose items
    raise makes the loop over the lists raise, whatever comes before and
    after it. *)
Lemma parse_lists_raises (before after : list node) (mayor_ul : node) :
  common_fields (items_of mayor_ul) <> Raise IndexError ->
  (forall data, exists e, match_items data (items_of mayor_ul) = Raise e) ->
  forall parsed_list, exists l e,
    parse_lists (before ++ mayor_ul :: after) parsed_list = (l, Raise e).
Proof.
  intros Hc Hm. induction before as [|x before IH]; intros acc; simpl.
  - destruct (common_fields (items_of mayor_ul)) as [data|ex].
    + destruct (Hm data) as [e He]. rewrite He. exists [], e. reflexivity.
    + destruct ex; try (eexists _, _; reflexivity). contradiction.
  - destruct (common_fields (items_of x)) as [d|ex].
    + destruct (match_items d (items_of x)) as [d'|ex'].
      * apply IH.
      * exists [], ex'. reflexivity.
    + destruct ex; try (eexists _, _; reflexivity).
      destruct (IH acc) as (l & e' & ->).
      eexists _, e'. reflexivity.
Qed.

Lemma mayors_of_page_raises (state : string) (page content : node)
  (before after : list node) (mayor_ul : node) :
  select_one_div_post_content page = Some content ->
  find_all "ul" content = before ++ mayor_ul :: after ->
  common_fields (items_of mayor_ul) <> Raise IndexError ->
  (forall data, exists e, match_items data (items_of mayor_ul) = Raise e) ->
  exists l e, mayors_of_page state page = (l, Raise e).
Proof.
  intros Hs Hf Hc Hm. unfold mayors_of_page. rewrite Hs, Hf.
  destruct (parse_lists_raises before after mayor_ul Hc Hm [])
    as (l & e & Hp).
  destruct (before ++ mayor_ul :: after) eqn:Hl.
  - destruct before; discriminate.
  - unfold lbind, logging. rewrite Hp. eexists _, e. reflexivity.
Qed.

Section SiteFacts.

Variable post : string -> response.

(** A state whose extraction raises ends the generator with an
    exception. *)
Lemma get_mayors_raises (before after : list string) (state : string) :
  (exists l e, get_mayors_for_state post state = (l, Raise e)) ->
  exists e, raised (snd (get_mayors post (before ++ state :: after))) = Some e.
Proof.
  intros (l & e & H). induction before as [|x before IH]; simpl.
  - rewrite H. exists e. reflexivity.
  - destruct (get_mayors_for_state post x) as [lx [ms|ex]].
    + destruct (get_mayors post (before ++ state :: after)) as [l' s].
      simpl. exact IH.
    + exists ex. reflexivity.
Qed.

Lemma write_rows_raised (out : string) (mayors : list record) (e : exn) :
  exists e', snd (write_rows out mayors (Some e)) = Some e'.
Proof.
  revert out. induction mayors as [|m mayors IH]; intros out; simpl.
  - exists e. reflexivity.
  - destruct (Csv.writerow CSV_FIELDS m) as [line|e'].
    + apply IH.
    + exists e'. reflexivity.
Qed.

(** An exception of the generator leaves either serializer. *)
Lemma writer_raised (f : format) (s : stream) (e : exn) :
  raised s = Some e -> exists e', snd (writer f s) = Some e'.
Proof.
  intros H. destruct f; simpl.
  - unfold write_to_csv. rewrite H.
    destruct (Csv.writeheader CSV_FIELDS) as [header|e'].
    + apply write_rows_raised.
    + exists e'. reflexivity.
  - unfold write_to_json. rewrite H. exists e. reflexivity.
Qed.

(** The run ends with a non-zero status as soon as the extraction of one
    of the states raises. *)
Lemma main_aborts (f : format) (before after : list string) (state : string) :
  (exists l e, get_mayors_for_state post state = (l, Raise e)) ->
  status (main post f (before ++ state :: after)) = 1.
Proof.
  intros H. destruct (get_mayors_raises before after state H) as [e He].
  unfold main.
  destruct (get_mayors post (before ++ state :: after)) as [l s].
  simpl in He. destruct (writer_raised f s e He) as [e' He'].
  destruct (writer f s) as [out o]. simpl in He'. subst o. reflexivity.
Qed.

End SiteFacts.

(* --------------------------------------------------------------------- *)
(** *** Keywords in the text of an element *)

Lemma prefix_app (a b : string) : prefix a (a ++ b) = true.
Proof.
  induction a as [|c a IH]; simpl; [apply prefix_empty|].
  destruct (ascii_dec c c); [exact IH|contradiction].
Qed.

Lemma contains_app (kw a b : string) :
  contains kw b = true -> contains kw (a ++ b) = true.
Proof.
  intros H. induction a as [|c a IH]; simpl; [exact H|].
  rewrite IH. apply orb_true_r.
Qed.

Lemma contains_prefix (kw b : string) : contains kw (kw ++ b) = true.
Proof.
  assert (H : forall s, prefix kw s = true -> contains kw s = true).
  { intros [|c s] Hp; cbn [contains]; rewrite Hp; reflexivity. }
  apply H, prefix_app.
Qed.

(** A keyword that [in] finds on a tag occurs in the text of the tag. *)
Lemma py_in_tag_text (kw nm : string) (a : dict string) (cs : list node) :
  py_in kw (Tag nm a cs) = true ->
  contains kw (get_text (Tag nm a cs)) = true.
Proof.
  simpl. induction cs as [|c cs IH]; simpl; [discriminate|].
  intros H. apply orb_true_iff in H as [H|H].
  - destruct c as [s|]; [|discriminate].
    apply String.eqb_eq in H. subst s. simpl. apply contains_prefix.
  - apply contains_app, IH, H.
Qed.

(* --------------------------------------------------------------------- *)
(** *** The leading fields and the content region *)

(** The handler of line 66 names [IndexError] only: a list whose second
    item is a tag without [src] leaves the loop with [KeyError]. *)
Lemma missing_src_not_caught (mayor_ul first : node) (nm : string)
  (attrs : dict string) (cs others rest : list node)
  (parsed_list : list record) :
  items_of mayor_ul = first :: Tag nm attrs cs :: others ->
  lookup "src" attrs = None ->
  parse_lists (mayor_ul :: rest) parsed_list = ([], Raise KeyError).
Proof.
  intros Hitems Hsrc. simpl. rewrite Hitems.
  unfold common_fields. simpl. rewrite Hsrc. reflexivity.
Qed.

(** A list with fewer than two items is logged and skipped. *)
Lemma short_list_skipped (mayor_ul : node) (rest : list node)
  (parsed_list : list record) :
  List.length (items_of mayor_ul) < 2 ->
  parse_lists (mayor_ul :: rest) parsed_list
  = (logging ERROR unable >> parse_lists rest parsed_list).
Proof.
  intros H. simpl.
  destruct (items_of mayor_ul) as [|x [|y l]]; simpl in H; try lia;
    reflexivity.
Qed.

Example empty_list_skipped :
  mayors_of_page "Illinois"
    (Sample.document
       [Sample.springfield; Tag "ul" [] [Sample.nl]; Sample.peoria])
  = ([(INFO, "found 3 mayors for Illinois"); (ERROR, unable)],
     Ok [Sample.springfield_record; Sample.peoria_record]).
Proof. reflexivity. Qed.

(** A content region without lists: the empty sequence, one record in
    the log at the level of information, and a run that ends with status
    zero. *)
Lemma no_lists_no_records (post : string -> response) (state : string)
  (page content : node) :
  post state = Page page ->
  select_one_div_post_content page = Some content ->
  find_all "ul" content = [] ->
  get_mayors_for_state post state
  = ([(INFO, "no mayors found for " ++ state)%string], Ok [])
  /\ main post csv [state]
     = mkrun header_row [(INFO, "no mayors found for " ++ state)%string] 0
  /\ main post json [state]
     = mkrun "[]" [(INFO, "no mayors found for " ++ state)%string] 0.
Proof.
  intros Hpost Hsel Hfind.
  assert (H : get_mayors_for_state post state
              = ([(INFO, "no mayors found for " ++ state)%string], Ok [])).
  { unfold get_mayors_for_state, mayors_of_page.
    rewrite Hpost, Hsel, Hfind. reflexivity. }
  split; [exact H|].
  split; unfold main; simpl; rewrite H; reflexivity.
Qed.

(* --------------------------------------------------------------------- *)
(** *** The serializers *)

Lemma writer_writerow_many (a b : string) (l : list string) :
  Csv.writer_writerow (a :: b :: l)
  = (join "," (map Csv.field (a :: b :: l)) ++ Csv.lineterminator)%string.
Proof. destruct a; reflexivity. Qed.

Lemma keys_within (r : record) :
  known_keys r ->
  forallb (fun k => existsb (String.eqb k) CSV_FIELDS) (keys r) = true.
Proof.
  intros H. apply forallb_forall. intros k Hk.
  apply existsb_exists. exists k. split; [|apply String.eqb_refl].
  apply H, Hk.
Qed.

(** A row of a record whose keys are field names. *)
Lemma writerow_record (r : record) :
  known_keys r ->
  Csv.writerow CSV_FIELDS r = Ok (csv_row r).
Proof.
  intros H. unfold Csv.writerow. rewrite (keys_within r H).
  change CSV_FIELDS with field_names. f_equal.
  unfold csv_row, cells.
  replace (map (fun k => match lookup k r with
                         | Some v => Csv.cell v
                         | None => EmptyString
                         end) field_names)
    with (map (fun k => match lookup k r with
                        | Some (Some v) => v
                        | _ => EmptyString
                        end) field_names).
  - unfold field_names. cbn [map]. rewrite writer_writerow_many. reflexivity.
  - apply map_ext. intros k. destruct (lookup k r) as [[v|]|]; reflexivity.
Qed.

Lemma write_rows_known (mayors : list record) (e : option exn) :
  Forall known_keys mayors ->
  forall out,
    write_rows out mayors e
    = ((out ++ concat_rows (map csv_row mayors))%string, e).
Proof.
  induction 1 as [|r mayors Hr _ IH]; intros out; simpl.
  - rewrite append_empty_r. reflexivity.
  - rewrite (writerow_record r Hr), IH, append_assoc. reflexivity.
Qed.



Lemma iterencode_members (r : record) :
  map (fun kv : string * Json.value =>
         (Json.encode_str (fst kv) ++ ": "
          ++ Json.iterencode 2 (snd kv))%string)
      (map (fun kv : string * option string => (fst kv, py_value (snd kv))) r)
  = map json_member r.
Proof.
  rewrite map_map. apply map_ext. intros [k [v|]]; reflexivity.
Qed.

(** An object of the output is the closed form of [json_object]. *)
Lemma iterencode_record (r : record) :
  Json.iterencode 1 (py_record r) = json_object r.
Proof.
  destruct r as [|kv r]; [reflexivity|].
  unfold py_record, json_object.
  change (Json.iterencode 1
            (Json.PyDict
               (map (fun kv0 : string * option string =>
                       (fst kv0, py_value (snd kv0))) (kv :: r))))
    with ("{" ++ Json.newline_indent 2
          ++ join ("," ++ Json.newline_indent 2)
               (map (fun kv0 : string * Json.value =>
                       (Json.encode_str (fst kv0) ++ ": "
                        ++ Json.iterencode 2 (snd kv0))%string)
                  (map (fun kv0 : string * option string =>
                          (fst kv0, py_value (snd kv0))) (kv :: r)))
          ++ Json.newline_indent 1 ++ "}")%string.
  rewrite iterencode_members. reflexivity.
Qed.

(** The array of the output is the closed form of [json_array]. *)
Lemma dumps_records (rs : list record) :
  Json.dumps (Json.PyList (map py_record rs)) = json_array rs.
Proof.
  destruct rs as [|r rs]; [reflexivity|].
  unfold Json.dumps, json_array.
  change (Json.iterencode 0 (Json.PyList (map py_record (r :: rs))))
    with ("[" ++ Json.newline_indent 1
          ++ join ("," ++ Json.newline_indent 1)
               (map (Json.iterencode 1) (map py_record (r :: rs)))
          ++ Json.newline_indent 0 ++ "]")%string.
  rewrite map_map.
  rewrite (map_ext _ json_object iterencode_record).
  reflexivity.
Qed.

Section EmptyRuns.

Variable post : string -> response.

Lemma get_mayors_no_records (states : list string) :
  (forall s, In s states -> snd (get_mayors_for_state post s) = Ok []) ->
  snd (get_mayors post states) = mkstream [] None.
Proof.
  induction states as [|s states IH]; intros H; simpl; [reflexivity|].
  pose proof (H s (or_introl eq_refl)) as Hs.
  destruct (get_mayors_for_state post s) as [l r]. simpl in Hs. subst r.
  specialize (IH (fun s' Hs' => H s' (or_intror Hs'))).
  destruct (get_mayors post states) as [l' st]. simpl in IH. subst st.
  reflexivity.
Qed.

End EmptyRuns.

(* --------------------------------------------------------------------- *)
(** *** The keys of the extracted records *)

Lemma keys_dict_set {V : Type} (k : string) (v : V) (d : dict V) (k' : string) :
  In k' (keys (dict_set k v d)) -> k' = k \/ In k' (keys d).
Proof.
  induction d as [|[k0 v0] d IH]; simpl.
  - intros [<-|[]]. left. reflexivity.
  - destruct (String.eqb_spec k0 k) as [->|Hne]; simpl.
    + intros [<-|H]; [left; reflexivity|right; right; exact H].
    + intros [<-|H]; [right; left; reflexivity|].
      destruct (IH H) as [->|H']; [left; reflexivity|right; right; exact H'].
Qed.

Lemma known_keys_set (k : string) (v : option string) (d : record) :
  In k field_names -> known_keys d -> known_keys (dict_set k v d).
Proof.
  intros Hk Hd k' H. destruct (keys_dict_set _ _ _ _ H) as [->|H'];
    [exact Hk|exact (Hd _ H')].
Qed.

Lemma common_fields_keys (items : list node) (data : record) :
  common_fields items = Ok data -> known_keys data.
Proof.
  unfold common_fields. intros H.
  destruct (getitem items 1) as [i1|]; [simpl in H|discriminate].
  destruct (getattr i1 "src") as [src|]; [simpl in H|discriminate].
  destruct (getitem items 2) as [i2|]; [simpl in H|discriminate].
  destruct (getitem items 3) as [i3|]; [simpl in H|discriminate].
  destruct (split_item i3 "," 0) as [c|]; [simpl in H|discriminate].
  destruct (split_item i3 "," 1) as [s|]; [simpl in H|discriminate].
  injection H as <-. intros k Hk. simpl in Hk. field_name.
Qed.

Lemma match_item_keys (data data' : record) (item : node) :
  match_item data item = Ok data' -> known_keys data -> known_keys data'.
Proof.
  unfold match_item. intros H Hd.
  destruct (match_population data item) as [d1|] eqn:H1; [|discriminate].
  simpl in H.
  destruct (match_next_election d1 item) as [d2|] eqn:H2; [|discriminate].
  simpl in H.
  assert (K1 : known_keys d1).
  { unfold match_population in H1. destruct (py_in "Population" item).
    - destruct (split_item item ":" 1); [|discriminate].
      injection H1 as <-. apply known_keys_set; [field_name|exact Hd].
    - injection H1 as <-. exact Hd. }
  assert (K2 : known_keys d2).
  { unfold match_next_election in H2.
    destruct (py_in "Next Election Date" item).
    - destruct (split_item item ":" 1) as [p|]; [simpl in H2|discriminate].
      destruct (strptime_mdY (strip p)); [|discriminate].
      injection H2 as <-. apply known_keys_set; [field_name|exact K1].
    - injection H2 as <-. exact K1. }
  unfold match_link in H.
  destruct (named "a" item); [|injection H as <-; exact K2].
  destruct (py_in "Web Site" item).
  { destruct (getattr item "href"); [|discriminate].
    injection H as <-. apply known_keys_set; [field_name|exact K2]. }
  destruct (py_in "Bio" item).
  { destruct (getattr item "href"); [|discriminate].
    injection H as <-. apply known_keys_set; [field_name|exact K2]. }
  destruct (get item "href") as [href|]; [|discriminate].
  destruct (contains "tel:" href).
  { injection H as <-. apply known_keys_set; [field_name|exact K2]. }
  destruct (contains "mailto:" href); injection H as <-;
    [apply known_keys_set; [field_name|exact K2]|exact K2].
Qed.

Lemma match_items_keys (items : list node) (data data' : record) :
  match_items data items = Ok data' -> known_keys data -> known_keys data'.
Proof.
  revert data. induction items as [|x items IH]; simpl; intros data H Hd.
  - injection H as <-. exact Hd.
  - destruct (match_item data x) as [d|] eqn:Hx; [|discriminate].
    simpl in H. apply (IH d H). exact (match_item_keys _ _ _ Hx Hd).
Qed.

Lemma parse_lists_keys (mayor_list : list node) :
  forall (parsed_list : list record) l rs,
    parse_lists mayor_list parsed_list = (l, Ok rs) ->
    Forall known_keys parsed_list -> Forall known_keys rs.
Proof.
  induction mayor_list as [|x ml IH]; simpl; intros acc l rs H Hacc.
  - injection H as _ <-. exact Hacc.
  - destruct (common_fields (items_of x)) as [d|e] eqn:Hc.
    + destruct (match_items d (items_of x)) as [d'|] eqn:Hm; [|discriminate].
      apply (IH _ _ _ H). apply Forall_app. split; [exact Hacc|].
      constructor; [|constructor].
      exact (match_items_keys _ _ _ Hm (common_fields_keys _ _ Hc)).
    + destruct e; try discriminate.
      unfold lbind, logging in H.
      destruct (parse_lists ml acc) as [l' r'] eqn:Hp.
      injection H as _ ->. exact (IH _ _ _ Hp Hacc).
Qed.

Lemma mayors_of_page_keys (state : string) (page : node) l rs :
  mayors_of_page state page = (l, Ok rs) -> Forall known_keys rs.
Proof.
  unfold mayors_of_page. intros H.
  destruct (select_one_div_post_content page) as [content|]; [|discriminate].
  destruct (find_all "ul" content) as [|u us].
  - injection H as _ <-. constructor.
  - unfold lbind, logging in H.
    destruct (parse_lists (u :: us) []) as [l' r'] eqn:Hp.
    injection H as _ ->. exact (parse_lists_keys _ _ _ _ Hp (Forall_nil _)).
Qed.

Section RunFacts.

Variable post : string -> response.

(** Every record the generator yields has its keys among the ten field
    names. *)
Lemma get_mayors_keys (states : list string) :
  Forall known_keys (yielded (snd (get_mayors post states))).
Proof.
  induction states as [|s states IH]; simpl; [constructor|].
  destruct (get_mayors_for_state post s) as [l [ms|e]] eqn:Hs;
    [|constructor].
  destruct (get_mayors post states) as [l' st]. simpl in *.
  apply Forall_app. split; [|exact IH].
  unfold get_mayors_for_state in Hs.
  destruct (post s) as [|page]; [discriminate|].
  exact (mayors_of_page_keys _ _ _ _ Hs).
Qed.

(** The tabular output of a run: the header row and the rows of the
    records yielded, whether or not the run ends with an exception; the
    writer itself never raises. *)
Lemma csv_of_run (states : list string) :
  write_to_csv (snd (get_mayors post states))
  = ((header_row
      ++ concat_rows
           (map csv_row (yielded (snd (get_mayors post states)))))%string,
     raised (snd (get_mayors post states))).
Proof.
  unfold write_to_csv.
  change (Csv.writeheader CSV_FIELDS) with (Ok header_row).
  apply write_rows_known, get_mayors_keys.
Qed.

End RunFacts.

(** The city and the state for any text with a comma: the state is what
    stands between the first comma and the next one, or the end. *)
Lemma common_fields_split (first photo name_node : node) (rest : list node)
  (src c s : string) :
  getattr photo "src" = Ok src ->
  has_char "," c = false ->
  common_fields
    (first :: photo :: name_node :: NavigableString (c ++ "," ++ s)%string
       :: rest)
  = Ok [ ("img_url", Some src);
         ("name", node_string name_node);
         ("city", Some (strip c));
         ("state", Some (strip (before_first "," s))) ].
Proof.
  intros Hsrc Hc. unfold common_fields. simpl.
  rewrite Hsrc. simpl.
  rewrite (split_at_first "," c s Hc), (split_first "," s).
  reflexivity.
Qed.

Lemma before_first_without (sep : ascii) (s : string) :
  has_char sep s = false -> before_first sep s = s.
Proof.
  induction s as [|c s IH]; simpl; intros H; [reflexivity|].
  apply orb_false_iff in H as [Hc Hs]. rewrite Hc, (IH Hs). reflexivity.
Qed.

(* --------------------------------------------------------------------- *)
(** *** Trimming *)

Lemma lstrip_head (s : string) :
  lstrip s = EmptyString
  \/ exists c r, lstrip s = String c r /\ isspace c = false.
Proof.
  induction s as [|c s IH]; simpl; [left; reflexivity|].
  destruct (isspace c) eqn:Hc; [exact IH|right; eauto].
Qed.

Lemma rstrip_head (c : ascii) (r : string) :
  isspace c = false -> exists r', rstrip (String c r) = String c r'.
Proof.
  intros Hc. simpl. destruct (rstrip r); [rewrite Hc|]; eexists; reflexivity.
Qed.

Lemma lstrip_split (s : string) :
  exists a, s = (a ++ lstrip s)%string /\ all_space a = true.
Proof.
  induction s as [|c s IH]; [exists EmptyString; split; reflexivity|].
  simpl. destruct (isspace c) eqn:Hc.
  - destruct IH as (a & Ha & Hs). exists (String c a). simpl.
    rewrite Hc, Hs, <- Ha. split; reflexivity.
  - exists EmptyString. split; reflexivity.
Qed.

Lemma rstrip_split (s : string) :
  exists b, s = (rstrip s ++ b)%string /\ all_space b = true.
Proof.
  induction s as [|c s IH]; [exists EmptyString; split; reflexivity|].
  destruct IH as (b & Hb & Hs). simpl.
  destruct (rstrip s) as [|c' r] eqn:E.
  - simpl in Hb. subst s. destruct (isspace c) eqn:Hc.
    + exists (String c b). simpl. rewrite Hc, Hs. split; reflexivity.
    + exists b. split; [reflexivity|exact Hs].
  - exists b. split; [|exact Hs]. cbn [append]. f_equal. exact Hb.
Qed.

Lemma rstrip_last (s : string) : last_space (rstrip s) = false.
Proof.
  induction s as [|c s IH]; [reflexivity|]. simpl.
  destruct (rstrip s) as [|c' r] eqn:E.
  - destruct (isspace c) eqn:Hc; [reflexivity|simpl; exact Hc].
  - exact IH.
Qed.

Lemma strip_first (s : string) : first_space (strip s) = false.
Proof.
  unfold strip.
  destruct (lstrip_head s) as [->|(c & r & -> & Hc)]; [reflexivity|].
  destruct (rstrip_head c r Hc) as [r' ->]. exact Hc.
Qed.

(** What [strip] returns is the text trimmed at both ends. *)
Lemma strip_trimmed (s : string) : trimmed_of s (strip s).
Proof.
  destruct (lstrip_split s) as (a & Ha & Hsa).
  destruct (rstrip_split (lstrip s)) as (b & Hb & Hsb).
  exists a, b. unfold strip.
  split; [rewrite <- Hb; exact Ha|].
  split; [exact Hsa|]. split; [exact Hsb|].
  split; [apply strip_first|apply rstrip_last].
Qed.

(** The parts of a text around its first separator. *)
Lemma first_separator (sep : ascii) (c s : string) :
  has_char sep c = false ->
  before_first sep (c ++ String sep s) = c
  /\ after_first sep (c ++ String sep s) = Some s.
Proof.
  induction c as [|a c IH]; cbn [append before_first after_first has_char].
  - intros _. rewrite Ascii.eqb_refl. split; reflexivity.
  - intros H. apply orb_false_iff in H as [Ha Hc].
    rewrite Ha. destruct (IH Hc) as [-> ->]. split; reflexivity.
Qed.

(** On the years of a [date], [%Y] is the decimal writing of the year. *)
Lemma year_text_decimal (y : nat) :
  y < 10 * 1000 -> year_text y = str_of_nat y.
Proof.
  intros Hy.
  assert (H : forallb (fun n => String.eqb (year_text n) (str_of_nat n))
                (seq 0 (10 * 1000)) = true) by (vm_compute; reflexivity).
  rewrite forallb_forall in H.
  apply String.eqb_eq, H, in_seq. lia.
Qed.

(* --------------------------------------------------------------------- *)
(** *** Dates written with leading zeros *)

Lemma digit_at_value (k n : nat) :
  nat_of_ascii (digit_at k n) = 48 + (n / 10 ^ k) mod 10.
Proof.
  unfold digit_at.
  assert (H : (n / 10 ^ k) mod 10 < 10) by (apply Nat.mod_upper_bound; lia).
  apply nat_ascii_embedding. lia.
Qed.

Lemma digit_at_cases (k n : nat) :
  In (digit_at k n)
     ["0"; "1"; "2"; "3"; "4"; "5"; "6"; "7"; "8"; "9"]%char.
Proof.
  unfold digit_at.
  assert (H : (n / 10 ^ k) mod 10 < 10) by (apply Nat.mod_upper_bound; lia).
  destruct ((n / 10 ^ k) mod 10) as [|[|[|[|[|[|[|[|[|[|x]]]]]]]]]];
    simpl; try tauto. lia.
Qed.

Lemma digit_at_plain (k n : nat) :
  isspace (digit_at k n) = false /\ Ascii.eqb (digit_at k n) ":" = false.
Proof.
  destruct (digit_at_cases k n) as [<-|[<-|[<-|[<-|[<-|[<-|[<-|[<-|[<-|[<-|[]]]]]]]]]]];
    split; reflexivity.
Qed.

Lemma strip_fixed (s : string) :
  all_chars (fun c => negb (isspace c)) s = true -> strip s = s.
Proof.
  intros H. unfold strip.
  assert (Hl : lstrip s = s).
  { destruct s as [|c s]; [reflexivity|]. simpl in *.
    apply andb_true_iff in H as [Hc _]. apply negb_true_iff in Hc.
    rewrite Hc. reflexivity. }
  rewrite Hl. induction s as [|c s IH]; [reflexivity|].
  simpl in H. apply andb_true_iff in H as [Hc Hs].
  apply negb_true_iff in Hc.
  assert (Hls : lstrip s = s).
  { destruct s as [|c' s]; [reflexivity|]. simpl in *.
    apply andb_true_iff in Hs as [Hc' _]. apply negb_true_iff in Hc'.
    rewrite Hc'. reflexivity. }
  simpl. rewrite (IH Hs Hls). destruct s; [rewrite Hc|]; reflexivity.
Qed.

Lemma decimal_digits (y : nat) :
  y < 10 * 1000 ->
  10 * (10 * (10 * (10 * 0 + (y / 1000) mod 10) + (y / 100) mod 10)
        + (y / 10) mod 10) + (y / 1) mod 10 = y.
Proof.
  intros H.
  pose proof (Nat.div_mod_eq y 10).
  pose proof (Nat.div_mod_eq (y / 10) 10).
  pose proof (Nat.div_mod_eq (y / 10 / 10) 10).
  rewrite Nat.div_1_r.
  replace (y / 100) with (y / 10 / 10) in *
    by (rewrite Nat.Div0.div_div; reflexivity).
  replace (y / 1000) with (y / 10 / 10 / 10) in *
    by (rewrite !Nat.Div0.div_div; reflexivity).
  assert (y / 10 / 10 / 10 < 10).
  { do 3 apply Nat.Div0.div_lt_upper_bound. lia. }
  rewrite (Nat.mod_small (y / 10 / 10 / 10) 10) by assumption.
  lia.
Qed.

Lemma dec4_plain (y : nat) :
  all_chars (fun c => negb (isspace c)) (dec4 y) = true
  /\ has_char ":" (dec4 y) = false.
Proof.
  unfold dec4. cbn [all_chars has_char].
  destruct (digit_at_plain 3 y) as [-> ->], (digit_at_plain 2 y) as [-> ->],
    (digit_at_plain 1 y) as [-> ->], (digit_at_plain 0 y) as [-> ->].
  split; reflexivity.
Qed.

Lemma dec2_plain (n : nat) :
  all_chars (fun c => negb (isspace c)) (dec2 n) = true
  /\ has_char ":" (dec2 n) = false.
Proof.
  unfold dec2. cbn [all_chars has_char].
  destruct (digit_at_plain 1 n) as [-> ->], (digit_at_plain 0 n) as [-> ->].
  split; reflexivity.
Qed.

(** The four digits of a year read back as the year. *)
Lemma int_dec4 (y : nat) : y < 10 * 1000 -> int (dec4 y) = y.
Proof.
  intros H. unfold int.
  rewrite (strip_fixed _ (proj1 (dec4_plain y))).
  unfold dec4. cbn [int_digits]. rewrite !digit_at_value.
  change (10 ^ 3) with 1000. change (10 ^ 2) with 100.
  change (10 ^ 1) with 10. change (10 ^ 0) with 1.
  replace (48 + (y / 1000) mod 10 - 48) with ((y / 1000) mod 10) by lia.
  replace (48 + (y / 100) mod 10 - 48) with ((y / 100) mod 10) by lia.
  replace (48 + (y / 10) mod 10 - 48) with ((y / 10) mod 10) by lia.
  replace (48 + (y / 1) mod 10 - 48) with ((y / 1) mod 10) by lia.
  apply decimal_digits, H.
Qed.

Lemma month_matches {R : Type} (m : nat) (r : string)
  (k : string -> string -> option R) (x : R) :
  1 <= m <= 12 ->
  k (dec2 m) r = Some x ->
  match_alt re_m (dec2 m ++ r) k = Some x /\ int (dec2 m) = m.
Proof.
  intros Hm.
  do 13 (destruct m as [|m]; [try lia; eval_dec2; intros Hk; simpl;
                              rewrite Hk; split; reflexivity|]).
  lia.
Qed.

Lemma day_matches {R : Type} (d : nat) (r : string)
  (k : string -> string -> option R) (x : R) :
  1 <= d <= 31 ->
  k (dec2 d) r = Some x ->
  match_alt re_d (dec2 d ++ r) k = Some x /\ int (dec2 d) = d.
Proof.
  intros Hd.
  do 32 (destruct d as [|d]; [try lia; eval_dec2; intros Hk; simpl;
                              rewrite Hk; split; reflexivity|]).
  lia.
Qed.

Lemma year_matches {R : Type} (y : nat)
  (k : string -> string -> option R) (x : R) :
  k (dec4 y) EmptyString = Some x ->
  match_alt re_Y (dec4 y) k = Some x.
Proof.
  intros Hk. unfold re_Y, dec4 in *. cbn [match_alt match_seq].
  rewrite !digit_at_digit. rewrite Hk. reflexivity.
Qed.

Lemma valid_date_bounds (y m d : nat) :
  valid_date y m d = true -> y < 10 * 1000 /\ 1 <= m <= 12 /\ 1 <= d <= 31.
Proof.
  unfold valid_date. intros H.
  repeat (apply andb_true_iff in H as [H ?]).
  repeat match goal with
         | E : (_ <=? _)%nat = true |- _ => apply Nat.leb_le in E
         end.
  assert (E : 9999 = 9 * 1000 + 999) by (vm_compute; reflexivity).
  rewrite E in *.
  assert (days_in_month y m <= 31).
  { unfold days_in_month.
    do 13 (destruct m as [|m]; [try destruct (is_leap y); lia|]). lia. }
  lia.
Qed.

Lemma slash_matches {R : Type} (r : string)
  (k : string -> string -> option R) (x : R) :
  k "/" r = Some x -> match_alt re_slash (String "/" r) k = Some x.
Proof. intros Hk. simpl. rewrite Hk. reflexivity. Qed.

(** A date written [MM/DD/YYYY] with leading zeros parses to itself. *)
Lemma strptime_padded (y m d : nat) :
  valid_date y m d = true ->
  strptime_mdY (dec2 m ++ "/" ++ dec2 d ++ "/" ++ dec4 y)
  = Ok (mkdate y m d).
Proof.
  intros Hv. destruct (valid_date_bounds y m d Hv) as (Hy & Hm & Hd).
  assert (Hmatch : match_mdY (dec2 m ++ "/" ++ dec2 d ++ "/" ++ dec4 y)
                   = Some (dec2 m, dec2 d, dec4 y, EmptyString)).
  { unfold match_mdY.
    apply (month_matches m _ _ _ Hm). cbv beta.
    apply (slash_matches (dec2 d ++ "/" ++ dec4 y)). cbv beta.
    apply (day_matches d _ _ _ Hd). cbv beta.
    apply (slash_matches (dec4 y)). cbv beta.
    apply year_matches. reflexivity. }
  unfold strptime_mdY. rewrite Hmatch.
  assert (Im : int (dec2 m) = m).
  { apply (month_matches m EmptyString (fun _ _ => Some tt) tt Hm).
    reflexivity. }
  assert (Id : int (dec2 d) = d).
  { apply (day_matches d EmptyString (fun _ _ => Some tt) tt Hd).
    reflexivity. }
  rewrite Im, Id, (int_dec4 y Hy), Hv. reflexivity.
Qed.




(* ===================================================================== *)
(** ** The claims *)
(* ===================================================================== *)

(** C1.  The code departs from the claim.  On a page with two valid cards
    and, between them, a card without its photo, the name tag stands
    where the photo is expected and has no [src]: [items[1]['src']]
    raises [KeyError], which [except IndexError] does not catch.  The
    extraction raises instead of yielding the two records, and the run
    ends with status one, with the header alone (CSV) or nothing (JSON)
    written. *)
Theorem C1_missing_photo_raises :
  get_mayors_for_state
    (Sample.site
       (Sample.document [Sample.springfield; Sample.no_photo; Sample.peoria]))
    "Illinois"
  = ([(INFO, "found 3 mayors for Illinois")], Raise KeyError)
  /\ main
       (Sample.site
          (Sample.document
             [Sample.springfield; Sample.no_photo; Sample.peoria]))
       csv ["Illinois"]
     = mkrun header_row [(INFO, "found 3 mayors for Illinois")] 1
  /\ main
       (Sample.site
          (Sample.document
             [Sample.springfield; Sample.no_photo; Sample.peoria]))
       json ["Illinois"]
     = mkrun EmptyString [(INFO, "found 3 mayors for Illinois")] 1.
Proof. repeat split. Qed.

(** C2.  The code departs from the claim.  On a page without the content
    region [select_one] is [None] and [content.find_all] raises
    [AttributeError]: the extraction raises instead of returning the
    empty sequence, nothing is logged, and a run for that state alone
    ends with status one. *)
Theorem C2_missing_region_raises
  (post : string -> response) (state : string) (page : node) :
  post state = Page page ->
  select_one_div_post_content page = None ->
  get_mayors_for_state post state = ([], Raise AttributeError)
  /\ main post csv [state] = mkrun header_row [] 1
  /\ main post json [state] = mkrun EmptyString [] 1.
Proof.
  intros Hpost Hsel.
  assert (H : get_mayors_for_state post state = ([], Raise AttributeError)).
  { unfold get_mayors_for_state, mayors_of_page. rewrite Hpost, Hsel.
    reflexivity. }
  split; [exact H|].
  split; unfold main; simpl; rewrite H; reflexivity.
Qed.

Lemma C2_witness :
  get_mayors_for_state (Sample.site Sample.no_region) "Guam"
  = ([], Raise AttributeError)
  /\ main (Sample.site Sample.no_region) csv ["Guam"] = mkrun header_row [] 1
  /\ main (Sample.site Sample.no_region) json ["Guam"]
     = mkrun EmptyString [] 1.
Proof.
  apply (C2_missing_region_raises (Sample.site Sample.no_region) "Guam"
           Sample.no_region); reflexivity.
Defined.

(** C3.  A list that line 66 does not skip and that holds a text node
    with "Next Election Date" followed, after the colon, by a text that
    [strptime] rejects: the loop body raises [ValueError] on that node,
    nothing catches it, the extraction of the state raises, and the run
    ends with a non-zero status whatever the other lists and the other
    states are. *)
Theorem C3_unparseable_date_aborts
  (post : string -> response) (f : format)
  (states_before states_after : list string) (state : string)
  (page content : node) (before after : list node) (mayor_ul : node)
  (s d : string) :
  post state = Page page ->
  select_one_div_post_content page = Some content ->
  find_all "ul" content = before ++ mayor_ul :: after ->
  common_fields (items_of mayor_ul) <> Raise IndexError ->
  In (NavigableString s) (items_of mayor_ul) ->
  contains "Next Election Date" s = true ->
  nth_error (split ":" s) 1 = Some d ->
  strptime_mdY (strip d) = Raise ValueError ->
  (forall data', match_item data' (NavigableString s) = Raise ValueError)
  /\ (exists l e, get_mayors_for_state post state = (l, Raise e))
  /\ status (main post f (states_before ++ state :: states_after)) = 1.
Proof.
  intros Hpost Hsel Hfind Hcommon Hin Hkw Hd Hparse.
  assert (Hitem : forall data',
             match_item data' (NavigableString s) = Raise ValueError).
  { intros data'.
    unfold match_item, match_population, match_next_election, split_item,
      getitem.
    simpl py_in. rewrite Hkw, Hd.
    destruct (contains "Population" s); simpl; rewrite Hparse; reflexivity. }
  assert (Hstate : exists l e, get_mayors_for_state post state = (l, Raise e)).
  { unfold get_mayors_for_state. rewrite Hpost.
    apply (mayors_of_page_raises state page content before after mayor_ul);
      try assumption.
    apply (match_items_raises (NavigableString s)); [assumption|].
    intros data'. exists ValueError. apply Hitem. }
  split; [exact Hitem|]. split; [exact Hstate|].
  apply main_aborts. exact Hstate.
Qed.

Lemma C3_witness :
  get_mayors_for_state
    (Sample.site
       (Sample.document [Sample.springfield; Sample.bad_date; Sample.peoria]))
    "Illinois"
  = ([(INFO, "found 3 mayors for Illinois")], Raise ValueError)
  /\ status
       (main
          (Sample.site
             (Sample.document
                [Sample.springfield; Sample.bad_date; Sample.peoria]))
          json ([] ++ "Illinois" :: ["Indiana"])) = 1.
Proof.
  split; [reflexivity|].
  apply (C3_unparseable_date_aborts
           (Sample.site
              (Sample.document
                 [Sample.springfield; Sample.bad_date; Sample.peoria]))
           json [] ["Indiana"] "Illinois"
           (Sample.document
              [Sample.springfield; Sample.bad_date; Sample.peoria])
           (Tag "div" [("class", "post-content clearfix")]
              [Sample.springfield; Sample.bad_date; Sample.peoria])
           [Sample.springfield] [Sample.peoria] Sample.bad_date
           "Next Election Date: TBD" " TBD");
    try reflexivity.
  - discriminate.
  - simpl. tauto.
Defined.

(** C4.  When the fourth item of a list is a text with a comma, the
    common fields split it at its first comma: with [c] the text before
    that comma and [s] the text after it, [city] is [c] and [state] is
    [s] (up to a further comma, of which a text of the form
    "City, State" has none), each with the white space at both of its
    ends removed and nothing else changed.
    For the text "Springfield, Illinois" the city is "Springfield" and
    the state "Illinois". *)
Theorem C4_city_state_split
  (first photo name_node : node) (rest : list node) (src c s : string) :
  getattr photo "src" = Ok src ->
  has_char "," c = false ->
  common_fields
    (first :: photo :: name_node :: NavigableString (c ++ "," ++ s)%string
       :: rest)
  = Ok [ ("img_url", Some src);
         ("name", node_string name_node);
         ("city", Some (strip c));
         ("state", Some (strip (before_first "," s))) ]
  /\ before_first "," (c ++ "," ++ s) = c
  /\ after_first "," (c ++ "," ++ s) = Some s
  /\ trimmed_of c (strip c)
  /\ trimmed_of (before_first "," s) (strip (before_first "," s))
  /\ (has_char "," s = false -> before_first "," s = s)
  /\ common_fields
       [ Sample.nl; Sample.img "https://example.org/langfelder.jpg";
         Tag "b" [] [NavigableString "Jim Langfelder"];
         NavigableString "Springfield, Illinois" ]
     = Ok [ ("img_url", Some "https://example.org/langfelder.jpg");
            ("name", Some "Jim Langfelder");
            ("city", Some "Springfield");
            ("state", Some "Illinois") ].
Proof.
  intros Hsrc Hc.
  split; [exact (common_fields_split first photo name_node rest src c s
                   Hsrc Hc)|].
  split; [apply (first_separator "," c s Hc)|].
  split; [apply (first_separator "," c s Hc)|].
  split; [apply strip_trimmed|]. split; [apply strip_trimmed|].
  split; [apply before_first_without|reflexivity].
Qed.

Lemma C4_witness :
  common_fields
    [ Sample.nl; Sample.img "https://example.org/langfelder.jpg";
      Tag "b" [] [NavigableString "Jim Langfelder"];
      NavigableString (newline ++ "  Springfield  ,  Illinois " ++ newline) ]
  = Ok [ ("img_url", Some "https://example.org/langfelder.jpg");
         ("name", Some "Jim Langfelder");
         ("city", Some "Springfield");
         ("state", Some "Illinois") ].
Proof.
  apply (C4_city_state_split Sample.nl
           (Sample.img "https://example.org/langfelder.jpg")
           (Tag "b" [] [NavigableString "Jim Langfelder"]) []
           "https://example.org/langfelder.jpg"
           (newline ++ "  Springfield  ") ("  Illinois " ++ newline));
    reflexivity.
Defined.

(** C5.  [parse_phone] drops every parenthesis and turns every space into
    a hyphen and changes nothing else, so that a number written
    "(XXX) XXX-XXXX" comes out as "XXX-XXX-XXXX"; the input
    "(555) 123-4567" is stored as "555-123-4567". *)
Theorem C5_parse_phone_normalizes :
  (forall p : string,
      parse_phone (Some p) = Some (normalize_phone p)
      /\ has_char "(" (normalize_phone p) = false
      /\ has_char ")" (normalize_phone p) = false
      /\ has_char " " (normalize_phone p) = false)
  /\ (forall a b c : string,
         parse_phone (Some ("(" ++ a ++ ") " ++ b ++ "-" ++ c)%string)
         = Some (normalize_phone a ++ "-" ++ normalize_phone b
                 ++ "-" ++ normalize_phone c)%string)
  /\ parse_phone (Some "(555) 123-4567") = Some "555-123-4567"
  /\ match_link [] (Sample.link "tel:5551234567" "(555) 123-4567")
     = Ok [("phone", Some "555-123-4567")].
Proof.
  assert (Heq : forall p, parse_phone (Some p) = Some (normalize_phone p)).
  { intros [|c p]; [reflexivity|].
    unfold parse_phone. rewrite replace_chain_normalize. reflexivity. }
  assert (Happ : forall a b, normalize_phone (a ++ b)
                             = (normalize_phone a ++ normalize_phone b)%string).
  { intros a b. induction a as [|x a IH]; simpl; [reflexivity|].
    rewrite IH, append_assoc. reflexivity. }
  repeat split.
  - apply Heq.
  - apply normalize_phone_clean. auto.
  - apply normalize_phone_clean. auto.
  - apply normalize_phone_clean. auto.
  - intros a b c. rewrite Heq. f_equal.
    change ("(" ++ a ++ ") " ++ b ++ "-" ++ c)%string
      with (String "(" (a ++ String ")" (String " " (b ++ String "-" c)))).
    simpl. rewrite Happ. simpl. rewrite Happ. reflexivity.
Qed.




(** C7.  For every sequence of records (dictionaries whose keys are among
    the ten field names) the CSV serializer writes the header row of the
    ten names in the order name, email, phone, bio_url, img_url, city,
    state, population, city_site_url, next_election, and then one row of
    ten cells per record in the order of arrival; the cell of a field
    that a record lacks is empty. *)
Theorem C7_csv_header_and_rows (mayors : list record) :
  Forall known_keys mayors ->
  write_to_csv (mkstream mayors None)
  = ((header_row ++ concat_rows (map csv_row mayors))%string, None)
  /\ CSV_FIELDS = field_names
  /\ Csv.writeheader CSV_FIELDS = Ok header_row
  /\ (forall r, List.length (cells r) = 10)
  /\ (forall r i k,
         nth_error field_names i = Some k -> lookup k r = None ->
         nth_error (cells r) i = Some EmptyString).
Proof.
  intros H. split; [|split; [reflexivity|split; [reflexivity|split]]].
  - unfold write_to_csv.
    change (Csv.writeheader CSV_FIELDS) with (Ok header_row).
    simpl yielded. simpl raised. apply write_rows_known, H.
  - intros r. reflexivity.
  - intros r i k Hi Hk. unfold cells.
    rewrite nth_error_map, Hi. simpl. rewrite Hk. reflexivity.
Qed.

Lemma C7_witness :
  write_to_csv (mkstream [Sample.peoria_record] None)
  = ((header_row
      ++ "Rita Ali,,,,https://example.org/ali.jpg,Peoria,Illinois, 113150,,"
      ++ cr ++ newline)%string, None).
Proof.
  apply (C7_csv_header_and_rows [Sample.peoria_record]).
  constructor; [|constructor]. intros k Hk. simpl in Hk. field_name.
Defined.


Example json_of_sample :
  main (Sample.site (Sample.document [Sample.peoria; Sample.springfield]))
    json ["Illinois"]
  = mkrun
      (json_array [Sample.peoria_record; Sample.springfield_record])
      [(INFO, "found 2 mayors for Illinois")] 0.
Proof. reflexivity. Qed.

Example json_text_of_peoria :
  json_array
    [ [("name", Some "Rita Ali"); ("email", None)]; [] ]
  = ("[" ++ newline
     ++ "    {" ++ newline
     ++ "        " ++ Csv.dq ++ "name" ++ Csv.dq ++ ": "
                   ++ Csv.dq ++ "Rita Ali" ++ Csv.dq ++ "," ++ newline
     ++ "        " ++ Csv.dq ++ "email" ++ Csv.dq ++ ": null" ++ newline
     ++ "    }," ++ newline
     ++ "    {}" ++ newline
     ++ "]")%string.
Proof. reflexivity. Qed.

(** C9.  A list that line 66 does not skip and that holds a link without
    an [href] whose text contains neither "Web Site" nor "Bio": the test
    ['tel:' in item.get('href')] is a membership test on [None] and
    raises [TypeError], nothing catches it, the extraction of the state
    raises, and the run ends with a non-zero status. *)
Theorem C9_link_without_href_aborts
  (post : string -> response) (f : format)
  (states_before states_after : list string) (state : string)
  (page content : node) (before after : list node) (mayor_ul : node)
  (attrs : dict string) (children : list node) :
  post state = Page page ->
  select_one_div_post_content page = Some content ->
  find_all "ul" content = before ++ mayor_ul :: after ->
  common_fields (items_of mayor_ul) <> Raise IndexError ->
  In (Tag "a" attrs children) (items_of mayor_ul) ->
  lookup "href" attrs = None ->
  contains "Web Site" (get_text (Tag "a" attrs children)) = false ->
  contains "Bio" (get_text (Tag "a" attrs children)) = false ->
  (forall data', match_link data' (Tag "a" attrs children) = Raise TypeError)
  /\ (forall data', exists e,
         match_item data' (Tag "a" attrs children) = Raise e)
  /\ (exists l e, get_mayors_for_state post state = (l, Raise e))
  /\ status (main post f (states_before ++ state :: states_after)) = 1.
Proof.
  intros Hpost Hsel Hfind Hcommon Hin Hhref Hweb Hbio.
  assert (Hw : py_in "Web Site" (Tag "a" attrs children) = false).
  { destruct (py_in "Web Site" (Tag "a" attrs children)) eqn:E;
      [|reflexivity].
    apply py_in_tag_text in E. congruence. }
  assert (Hb : py_in "Bio" (Tag "a" attrs children) = false).
  { destruct (py_in "Bio" (Tag "a" attrs children)) eqn:E; [|reflexivity].
    apply py_in_tag_text in E. congruence. }
  assert (Hlink : forall data',
             match_link data' (Tag "a" attrs children) = Raise TypeError).
  { intros data'. unfold match_link. rewrite Hw, Hb.
    simpl. rewrite Hhref. reflexivity. }
  assert (Hitem : forall data', exists e,
             match_item data' (Tag "a" attrs children) = Raise e).
  { intros data'. unfold match_item, match_population, match_next_election.
    destruct (py_in "Population" (Tag "a" attrs children)).
    - unfold split_item. destruct (find "split" _); eexists; reflexivity.
    - cbn [bind].
      destruct (py_in "Next Election Date" (Tag "a" attrs children)).
      + unfold split_item.
        destruct (find "split" _); eexists; reflexivity.
      + cbn [bind]. exists TypeError. apply Hlink. }
  assert (Hstate : exists l e, get_mayors_for_state post state = (l, Raise e)).
  { unfold get_mayors_for_state. rewrite Hpost.
    apply (mayors_of_page_raises state page content before after mayor_ul);
      try assumption.
    apply (match_items_raises (Tag "a" attrs children)); assumption. }
  split; [exact Hlink|]. split; [exact Hitem|]. split; [exact Hstate|].
  apply main_aborts. exact Hstate.
Qed.

Lemma C9_witness :
  get_mayors_for_state
    (Sample.site (Sample.document [Sample.bare_link; Sample.peoria]))
    "Illinois"
  = ([(INFO, "found 2 mayors for Illinois")], Raise TypeError)
  /\ status
       (main (Sample.site (Sample.document [Sample.bare_link; Sample.peoria]))
          csv ([] ++ "Illinois" :: [])) = 1.
Proof.
  split; [reflexivity|].
  apply (C9_link_without_href_aborts
           (Sample.site (Sample.document [Sample.bare_link; Sample.peoria]))
           csv [] [] "Illinois"
           (Sample.document [Sample.bare_link; Sample.peoria])
           (Tag "div" [("class", "post-content clearfix")]
              [Sample.bare_link; Sample.peoria])
           [] [Sample.peoria] Sample.bare_link
           [("class", "more")] [NavigableString "Contact"]);
    try reflexivity.
  - discriminate.
  - simpl. tauto.
Defined.

(** C10.  For the empty sequence of records the CSV serializer writes the
    header row of the ten field names and nothing else.  That is the
    output of a run with an empty list of states, and of a run in which
    no state yields a record; such a run ends with status zero. *)
Theorem C10_empty_sequence_header_only
  (post : string -> response) (states : list string) :
  (forall s, In s states -> snd (get_mayors_for_state post s) = Ok []) ->
  write_to_csv (mkstream [] None) = (header_row, None)
  /\ main post csv [] = mkrun header_row [] 0
  /\ output (main post csv states) = header_row
  /\ status (main post csv states) = 0.
Proof.
  intros H. split; [reflexivity|]. split; [reflexivity|].
  pose proof (get_mayors_no_records post states H) as Hs.
  unfold main. destruct (get_mayors post states) as [l st].
  simpl in Hs. subst st. split; reflexivity.
Qed.

Lemma C10_witness :
  output (main (Sample.site (Sample.document [])) csv ["Guam"; "Illinois"])
  = header_row
  /\ status (main (Sample.site (Sample.document [])) csv ["Guam"; "Illinois"])
     = 0.
Proof.
  apply (C10_empty_sequence_header_only
           (Sample.site (Sample.document [])) ["Guam"; "Illinois"]).
  intros s Hs. reflexivity.
Defined.

(* ===================================================================== *)
(** ** Further properties of the program *)
(* ===================================================================== *)

(* --------------------------------------------------------------------- *)
(** *** Phone numbers *)

Lemma parse_phone_Some (s : string) :
  parse_phone (Some s) = Some (normalize_phone s).
Proof.
  destruct s as [|c s]; [reflexivity|].
  unfold parse_phone. rewrite replace_chain_normalize. reflexivity.
Qed.

Lemma normalize_phone_fixed (s : string) :
  has_char "(" s = false -> has_char ")" s = false ->
  has_char " " s = false -> normalize_phone s = s.
Proof.
  induction s as [|c s IH]; simpl; intros H1 H2 H3; [reflexivity|].
  apply orb_false_iff in H1 as [A1 B1].
  apply orb_false_iff in H2 as [A2 B2].
  apply orb_false_iff in H3 as [A3 B3].
  unfold normalize_char. rewrite A1, A2, A3. simpl.
  rewrite (IH B1 B2 B3). reflexivity.
Qed.

(** X1.  [parse_phone] is idempotent: a value that went through it is
    left as it is by a second pass, [None] and the empty string
    included. *)
Theorem X1_parse_phone_idempotent (p : option string) :
  parse_phone (parse_phone p) = parse_phone p.
Proof.
  destruct p as [s|]; [|reflexivity].
  rewrite parse_phone_Some, parse_phone_Some. f_equal.
  apply normalize_phone_fixed; apply normalize_phone_clean; auto.
Qed.

(* --------------------------------------------------------------------- *)
(** *** The removal of line breaks *)

Lemma descendants_Tag (nm : string) (a : dict string) (cs : list node) :
  descendants (Tag nm a cs) = flat_map (fun c => c :: descendants c) cs.
Proof.
  simpl. induction cs as [|c cs IH]; [reflexivity|].
  simpl. rewrite IH. reflexivity.
Qed.

Lemma decompose_br_Tag (nm : string) (a : dict string) (cs : list node) :
  decompose_br (Tag nm a cs)
  = Tag nm a (map decompose_br (filter (fun c => negb (named "br" c)) cs)).
Proof.
  simpl. f_equal. induction cs as [|c cs IH]; [reflexivity|].
  simpl. destruct (named "br" c); simpl; rewrite IH; reflexivity.
Qed.

Lemma named_decompose_br (nm : string) (n : node) :
  named nm (decompose_br n) = named nm n.
Proof. destruct n; reflexivity. Qed.

Lemma no_br_below (n : node) :
  Forall (fun d => named "br" d = false) (descendants (decompose_br n)).
Proof.
  induction n as [s|nm a cs IH] using node_induction; [constructor|].
  rewrite decompose_br_Tag, descendants_Tag.
  induction cs as [|c cs IHcs]; simpl; [constructor|].
  inversion IH as [|? ? Hc Hcs]; subst.
  destruct (named "br" c) eqn:Hn; simpl; [exact (IHcs Hcs)|].
  constructor; [rewrite named_decompose_br; exact Hn|].
  apply Forall_app. split; [exact Hc|exact (IHcs Hcs)].
Qed.

Lemma decompose_br_idempotent (n : node) :
  decompose_br (decompose_br n) = decompose_br n.
Proof.
  induction n as [s|nm a cs IH] using node_induction; [reflexivity|].
  rewrite decompose_br_Tag, decompose_br_Tag. f_equal.
  induction cs as [|c cs IHcs]; simpl; [reflexivity|].
  inversion IH as [|? ? Hc Hcs]; subst.
  destruct (named "br" c) eqn:Hn; simpl; [exact (IHcs Hcs)|].
  rewrite named_decompose_br, Hn. simpl. rewrite Hc, (IHcs Hcs). reflexivity.
Qed.

(** X2.  Once the line breaks of a list are decomposed (lines 53-54) no
    [br] is left anywhere below it, so none is among the items, and the
    removal is idempotent: a list nested in a list that was already
    treated gives the same items as on its own. *)
Theorem X2_no_line_break_left (mayor_ul : node) :
  find_all "br" (decompose_br mayor_ul) = []
  /\ Forall (fun item => named "br" item = false) (items_of mayor_ul)
  /\ items_of (decompose_br mayor_ul) = items_of mayor_ul.
Proof.
  split; [|split].
  - unfold find_all. pose proof (no_br_below mayor_ul) as H.
    induction H as [|d l Hd _ IH]; simpl; [reflexivity|].
    rewrite Hd. exact IH.
  - unfold items_of. pose proof (no_br_below mayor_ul) as H.
    destruct (decompose_br mayor_ul) as [s|nm a cs]; [constructor|].
    rewrite descendants_Tag in H. simpl.
    induction cs as [|c cs IH]; [constructor|].
    simpl in H. inversion H as [|? ? Hc Hrest]; subst.
    apply Forall_app in Hrest as [_ Hcs].
    constructor; [exact Hc|exact (IH Hcs)].
  - unfold items_of. rewrite decompose_br_idempotent. reflexivity.
Qed.

(* --------------------------------------------------------------------- *)
(** *** The loop over the lists *)

(** The loop over two runs of lists is the loop over the first followed,
    from its result, by the loop over the second. *)
Lemma parse_lists_app (l1 l2 : list node) (parsed_list : list record) :
  parse_lists (l1 ++ l2) parsed_list
  = lbind (parse_lists l1 parsed_list) (fun acc => parse_lists l2 acc).
Proof.
  revert parsed_list. induction l1 as [|x l1 IH]; intros acc; simpl.
  - destruct (parse_lists l2 acc). reflexivity.
  - destruct (common_fields (items_of x)) as [d|e].
    + destruct (match_items d (items_of x)) as [d'|e']; [apply IH|reflexivity].
    + destruct e; try reflexivity.
      unfold logging. simpl. rewrite IH.
      destruct (parse_lists l1 acc) as [la [a|e]]; simpl;
        [destruct (parse_lists l2 a)|]; reflexivity.
Qed.

(** What the loop returns: the records it was given, then one record per
    list that was not skipped; what it logs: one entry per list
    skipped. *)
Lemma parse_lists_shape (mayor_list : list node) :
  forall (parsed_list : list record) l rs,
    parse_lists mayor_list parsed_list = (l, Ok rs) ->
    exists new k,
      rs = parsed_list ++ new /\ l = skipped k
      /\ List.length new + k = List.length mayor_list.
Proof.
  induction mayor_list as [|x ml IH]; simpl; intros acc l rs H.
  - injection H as <- <-. exists [], 0. rewrite app_nil_r. auto.
  - destruct (common_fields (items_of x)) as [d|e].
    + destruct (match_items d (items_of x)) as [d'|]; [|discriminate].
      destruct (IH _ _ _ H) as (new & k & -> & -> & Hlen).
      exists (d' :: new), k. rewrite <- app_assoc. simpl.
      repeat split; lia.
    + destruct e; try discriminate.
      unfold lbind, logging in H.
      destruct (parse_lists ml acc) as [l' r'] eqn:Hp.
      injection H as <- ->.
      destruct (IH _ _ _ Hp) as (new & k & -> & -> & Hlen).
      exists new, (S k). repeat split; simpl; lia.
Qed.

(** X3.  When the extraction of a state returns, it logged one entry at
    the level of information followed by one error entry per list
    skipped, and the records returned and the lists skipped add up to
    the lists of the content region: every list gives one record or one
    error entry. *)
Theorem X3_records_and_skips_add_up
  (post : string -> response) (state : string) (page content : node)
  (l : list log_record) (rs : list record) :
  post state = Page page ->
  select_one_div_post_content page = Some content ->
  get_mayors_for_state post state = (l, Ok rs) ->
  exists msg k,
    l = (INFO, msg) :: skipped k
    /\ List.length rs + k = List.length (find_all "ul" content).
Proof.
  intros Hpost Hsel H. unfold get_mayors_for_state in H. rewrite Hpost in H.
  unfold mayors_of_page in H. rewrite Hsel in H.
  destruct (find_all "ul" content) as [|u us] eqn:Hf.
  - injection H as <- <-. eexists _, 0. split; reflexivity.
  - unfold lbind, logging in H.
    destruct (parse_lists (u :: us) []) as [l' r'] eqn:Hp.
    injection H as <- ->.
    destruct (parse_lists_shape _ _ _ _ Hp) as (new & k & -> & -> & Hlen).
    eexists _, k. split; [reflexivity|exact Hlen].
Qed.

Lemma X3_witness :
  exists msg k,
    [(INFO, "found 3 mayors for Illinois"); (ERROR, unable)]
    = (INFO, msg) :: skipped k
    /\ List.length [Sample.springfield_record; Sample.peoria_record] + k
       = List.length
           (find_all "ul"
              (Tag "div" [("class", "post-content clearfix")]
                 [Sample.springfield; Tag "ul" [] [Sample.nl];
                  Sample.peoria])).
Proof.
  apply (X3_records_and_skips_add_up
           (Sample.site
              (Sample.document
                 [Sample.springfield; Tag "ul" [] [Sample.nl];
                  Sample.peoria]))
           "Illinois"
           (Sample.document
              [Sample.springfield; Tag "ul" [] [Sample.nl]; Sample.peoria]));
    reflexivity.
Defined.

(** X4.  The loop of lines 52-88 composes: over two runs of lists it is
    the loop over the first followed, from the records so far, by the
    loop over the second, and an exception in the first ends it there.
    The records already collected are never changed: the result starts
    with them. *)
Theorem X4_lists_in_source_order
  (l1 l2 : list node) (parsed_list : list record) :
  parse_lists (l1 ++ l2) parsed_list
  = lbind (parse_lists l1 parsed_list) (fun acc => parse_lists l2 acc)
  /\ (forall e l, parse_lists l1 parsed_list = (l, Raise e) ->
                  parse_lists (l1 ++ l2) parsed_list = (l, Raise e))
  /\ (forall l rs, parse_lists l1 parsed_list = (l, Ok rs) ->
                   exists new, rs = parsed_list ++ new
                               /\ List.length new <= List.length l1).
Proof.
  split; [apply parse_lists_app|]. split.
  - intros e l H. rewrite parse_lists_app, H. reflexivity.
  - intros l rs H.
    destruct (parse_lists_shape _ _ _ _ H) as (new & k & -> & _ & Hlen).
    exists new. split; [reflexivity|lia].
Qed.

(* --------------------------------------------------------------------- *)
(** *** What the extraction puts in a record *)

Lemma split_pieces (sep : ascii) (s : string) :
  Forall (fun p => has_char sep p = false) (split sep s).
Proof.
  induction s as [|c s IH]; simpl; [repeat constructor|].
  destruct (Ascii.eqb c sep) eqn:Hc; [constructor; [reflexivity|exact IH]|].
  destruct (split sep s) as [|p ps]; [repeat constructor; simpl; rewrite Hc;
                                      reflexivity|].
  inversion IH as [|? ? Hp Hps]; subst.
  constructor; [simpl; rewrite Hc, Hp; reflexivity|exact Hps].
Qed.

Lemma getitem_In {A : Type} (l : list A) (i : nat) (a : A) :
  getitem l i = Ok a -> In a l.
Proof.
  unfold getitem. destruct (nth_error l i) eqn:H; [|discriminate].
  intros E. injection E as <-. exact (nth_error_In _ _ H).
Qed.

Lemma split_item_piece (n : node) (sep : ascii) (i : nat) (p : string) :
  split_item n sep i = Ok p -> has_char sep p = false.
Proof.
  destruct n as [s|nm a cs]; simpl.
  - intros H. apply getitem_In in H.
    pose proof (split_pieces sep s) as Hall.
    rewrite Forall_forall in Hall. exact (Hall _ H).
  - destruct (find "split" (Tag nm a cs)); discriminate.
Qed.

(** The common fields, when they are obtained, are the dictionary
    display of lines 59-65. *)
Lemma common_fields_common (items : list node) (data : record) :
  common_fields items = Ok data -> common data.
Proof.
  unfold common_fields. intros H.
  destruct (getitem items 1) as [i1|]; [simpl in H|discriminate].
  destruct (getattr i1 "src") as [src|]; [simpl in H|discriminate].
  destruct (getitem items 2) as [i2|]; [simpl in H|discriminate].
  destruct (getitem items 3) as [i3|]; [simpl in H|discriminate].
  destruct (split_item i3 "," 0) as [c|] eqn:Hc; [simpl in H|discriminate].
  destruct (split_item i3 "," 1) as [s|] eqn:Hs; [simpl in H|discriminate].
  injection H as <-. exists src, (node_string i2), c, s.
  split; [reflexivity|].
  split; [exact (split_item_piece _ _ _ _ Hc)|exact (split_item_piece _ _ _ _ Hs)].
Qed.

Lemma updates_trans (d d1 d2 : record) :
  updates d d1 -> updates d1 d2 -> updates d d2.
Proof.
  intros H1 H2. induction H2 as [|k v d' _ IH Hk]; [exact H1|].
  exact (updates_set d k v d' IH Hk).
Qed.

Lemma updates_one (d : record) (k : string) (v : option string) :
  assigned k v -> updates d (dict_set k v d).
Proof. intros H. exact (updates_set d k v d (updates_none d) H). Qed.

(** The body of the loop changes the dictionary by assignments of
    lines 72-87 only. *)
Lemma match_item_updates (data data' : record) (item : node) :
  match_item data item = Ok data' -> updates data data'.
Proof.
  unfold match_item. intros H.
  destruct (match_population data item) as [d1|] eqn:H1; [|discriminate].
  simpl in H.
  destruct (match_next_election d1 item) as [d2|] eqn:H2; [|discriminate].
  simpl in H.
  assert (U1 : updates data d1).
  { unfold match_population in H1. destruct (py_in "Population" item).
    - destruct (split_item item ":" 1) as [p|]; [|discriminate].
      injection H1 as <-. apply updates_one. left. eauto.
    - injection H1 as <-. constructor. }
  assert (U2 : updates d1 d2).
  { unfold match_next_election in H2.
    destruct (py_in "Next Election Date" item).
    - destruct (split_item item ":" 1) as [p|]; [simpl in H2|discriminate].
      destruct (strptime_mdY (strip p)) as [dt|]; [|discriminate].
      injection H2 as <-. apply updates_one. right. left. eauto.
    - injection H2 as <-. constructor. }
  assert (U3 : updates d2 data').
  { unfold match_link in H.
    destruct (named "a" item); [|injection H as <-; constructor].
    destruct (py_in "Web Site" item).
    { destruct (getattr item "href") as [h|]; [|discriminate].
      injection H as <-. apply updates_one. right. right. left. eauto. }
    destruct (py_in "Bio" item).
    { destruct (getattr item "href") as [h|]; [|discriminate].
      injection H as <-. apply updates_one. do 3 right. left. eauto. }
    destruct (get item "href") as [href|]; [|discriminate].
    destruct (contains "tel:" href).
    { injection H as <-. apply updates_one. do 4 right. left. eauto. }
    destruct (contains "mailto:" href); injection H as <-;
      [apply updates_one; do 5 right; reflexivity|constructor]. }
  exact (updates_trans _ _ _ (updates_trans _ _ _ U1 U2) U3).
Qed.

Lemma match_items_updates (items : list node) (data data' : record) :
  match_items data items = Ok data' -> updates data data'.
Proof.
  revert data. induction items as [|x items IH]; simpl; intros data H.
  - injection H as <-. constructor.
  - destruct (match_item data x) as [d|] eqn:Hx; [|discriminate].
    simpl in H.
    exact (updates_trans _ _ _ (match_item_updates _ _ _ Hx) (IH _ H)).
Qed.

Lemma parse_lists_extracted (mayor_list : list node) :
  forall (parsed_list : list record) l rs,
    parse_lists mayor_list parsed_list = (l, Ok rs) ->
    Forall extracted parsed_list -> Forall extracted rs.
Proof.
  induction mayor_list as [|x ml IH]; simpl; intros acc l rs H Hacc.
  - injection H as _ <-. exact Hacc.
  - destruct (common_fields (items_of x)) as [d|e] eqn:Hc.
    + destruct (match_items d (items_of x)) as [d'|] eqn:Hm; [|discriminate].
      apply (IH _ _ _ H). apply Forall_app. split; [exact Hacc|].
      constructor; [|constructor]. exists d.
      split; [exact (common_fields_common _ _ Hc)|].
      exact (match_items_updates _ _ _ Hm).
    + destruct e; try discriminate.
      unfold lbind, logging in H.
      destruct (parse_lists ml acc) as [l' r'] eqn:Hp.
      injection H as _ ->. exact (IH _ _ _ Hp Hacc).
Qed.

(** Every record the generator yields is the dictionary display of
    lines 59-65 followed by assignments of the loop. *)
Lemma get_mayors_extracted (post : string -> response)
  (states : list string) :
  Forall extracted (yielded (snd (get_mayors post states))).
Proof.
  induction states as [|s states IH]; simpl; [constructor|].
  destruct (get_mayors_for_state post s) as [l [ms|e]] eqn:Hs;
    [|constructor].
  destruct (get_mayors post states) as [l' st]. simpl in *.
  apply Forall_app. split; [|exact IH].
  unfold get_mayors_for_state in Hs.
  destruct (post s) as [|page]; [discriminate|].
  unfold mayors_of_page in Hs.
  destruct (select_one_div_post_content page) as [content|]; [|discriminate].
  destruct (find_all "ul" content) as [|u us].
  - injection Hs as _ <-. constructor.
  - unfold lbind, logging in Hs.
    destruct (parse_lists (u :: us) []) as [l1 r1] eqn:Hp.
    injection Hs as _ ->.
    exact (parse_lists_extracted _ _ _ _ Hp (Forall_nil _)).
Qed.

(* --------------------------------------------------------------------- *)
(** *** Keys *)

Lemma keys_dict_set_eq {V : Type} (k : string) (v : V) (d : dict V) :
  keys (dict_set k v d)
  = if existsb (String.eqb k) (keys d) then keys d else keys d ++ [k].
Proof.
  induction d as [|[k0 v0] d IH]; simpl; [reflexivity|].
  rewrite (String.eqb_sym k k0).
  destruct (String.eqb_spec k0 k) as [->|Hne]; simpl; [reflexivity|].
  rewrite IH. destruct (existsb (String.eqb k) (keys d)); reflexivity.
Qed.

Lemma existsb_eqb_In (k : string) (l : list string) :
  existsb (String.eqb k) l = true <-> In k l.
Proof.
  rewrite existsb_exists. split.
  - intros (x & Hx & E). apply String.eqb_eq in E. subst x. exact Hx.
  - intros H. exists k. split; [exact H|apply String.eqb_refl].
Qed.

Lemma assigned_key (k : string) (v : option string) :
  assigned k v ->
  In k ["population"; "next_election"; "city_site_url"; "bio_url";
        "phone"; "email"].
Proof.
  intros [[-> _]|[[-> _]|[[-> _]|[[-> _]|[[-> _]| ->]]]]]; simpl; tauto.
Qed.

(** The keys of an extracted record: the four common ones, then keys of
    the loop without repetition. *)
Lemma extracted_keys (r : record) :
  extracted r ->
  exists rest,
    keys r = ["img_url"; "name"; "city"; "state"] ++ rest
    /\ NoDup rest
    /\ incl rest ["population"; "next_election"; "city_site_url";
                  "bio_url"; "phone"; "email"].
Proof.
  intros (d & (img & nm & c & s & -> & _) & Hu).
  induction Hu as [|k v d' _ IH Hk].
  - exists []. repeat split; [constructor|intros x []].
  - destruct IH as (rest & Hkeys & Hnd & Hincl).
    pose proof (assigned_key k v Hk) as Hin.
    rewrite keys_dict_set_eq.
    destruct (existsb (String.eqb k) (keys d')) eqn:He.
    + exists rest. auto.
    + exists (rest ++ [k]). rewrite Hkeys, <- app_assoc.
      split; [reflexivity|]. split.
      * apply NoDup_app; [exact Hnd|repeat constructor; simpl; tauto|].
        intros x Hx [E|[]]. subst x.
        assert (Hc : existsb (String.eqb k) (keys d') = true).
        { apply existsb_eqb_In. rewrite Hkeys. apply in_or_app. right.
          exact Hx. }
        congruence.
      * intros x Hx. apply in_app_or in Hx as [Hx|[<-|[]]];
          [exact (Hincl _ Hx)|exact Hin].
Qed.

(** X5.  Every record a run yields has the keys [img_url], [name],
    [city] and [state], in this order, followed by keys among
    [population], [next_election], [city_site_url], [bio_url], [phone]
    and [email]; no key occurs twice, so a record has at most ten
    entries and its JSON object no repeated member. *)
Theorem X5_keys_of_records
  (post : string -> response) (states : list string) (r : record) :
  In r (yielded (snd (get_mayors post states))) ->
  exists rest,
    keys r = ["img_url"; "name"; "city"; "state"] ++ rest
    /\ incl rest ["population"; "next_election"; "city_site_url";
                  "bio_url"; "phone"; "email"]
    /\ NoDup (keys r)
    /\ List.length (keys r) <= 10.
Proof.
  intros Hin.
  pose proof (get_mayors_extracted post states) as Hall.
  rewrite Forall_forall in Hall.
  destruct (extracted_keys r (Hall r Hin)) as (rest & Hkeys & Hnd & Hincl).
  exists rest. split; [exact Hkeys|]. split; [exact Hincl|].
  assert (Hfresh : forall x, In x ["img_url"; "name"; "city"; "state"] ->
                             ~ In x rest).
  { intros x Hx Hr. apply Hincl in Hr. simpl in Hx, Hr.
    repeat (destruct Hx as [<-|Hx]; [repeat (destruct Hr as [Hr|Hr];
                                             [discriminate|]); contradiction|]).
    contradiction. }
  split.
  - rewrite Hkeys. apply NoDup_app; [|exact Hnd|exact Hfresh].
    repeat constructor; simpl; intuition discriminate.
  - rewrite Hkeys, length_app. simpl.
    pose proof (NoDup_incl_length Hnd Hincl) as Hlen. simpl in Hlen. lia.
Qed.

Lemma X5_witness :
  exists rest,
    keys Sample.springfield_record
    = ["img_url"; "name"; "city"; "state"] ++ rest
    /\ incl rest ["population"; "next_election"; "city_site_url";
                  "bio_url"; "phone"; "email"]
    /\ NoDup (keys Sample.springfield_record)
    /\ List.length (keys Sample.springfield_record) <= 10.
Proof.
  apply (X5_keys_of_records
           (Sample.site (Sample.document [Sample.springfield]))
           ["Illinois"] Sample.springfield_record).
  simpl. tauto.
Defined.

(* --------------------------------------------------------------------- *)
(** *** Values *)

Lemma lookup_dict_set_other {V : Type} (k k' : string) (v : V) (d : dict V) :
  k' <> k -> lookup k' (dict_set k v d) = lookup k' d.
Proof.
  intros Hne. induction d as [|[k0 v0] d IH]; simpl.
  - destruct (String.eqb_spec k k'); [congruence|reflexivity].
  - destruct (String.eqb_spec k0 k) as [->|H0]; simpl.
    + destruct (String.eqb_spec k k'); [congruence|reflexivity].
    + destruct (String.eqb_spec k0 k'); [reflexivity|exact IH].
Qed.

Lemma replace_removes (c : ascii) (s : string) :
  has_char c (replace c EmptyString s) = false.
Proof.
  induction s as [|x s IH]; simpl; [reflexivity|].
  destruct (Ascii.eqb x c) eqn:Hx; simpl; [exact IH|].
  rewrite Hx, IH. reflexivity.
Qed.

Lemma rstrip_idempotent (s : string) : rstrip (rstrip s) = rstrip s.
Proof.
  induction s as [|c s IH]; [reflexivity|].
  simpl. destruct (rstrip s) as [|c' r] eqn:E.
  - destruct (isspace c) eqn:Hc; [reflexivity|]. simpl. rewrite Hc. reflexivity.
  - change (rstrip (String c (String c' r))) with
      (match rstrip (String c' r) with
       | EmptyString => if isspace c then EmptyString else String c EmptyString
       | String _ _ as t => String c t
       end).
    rewrite IH. reflexivity.
Qed.

(** Stripping twice is stripping once. *)
Lemma strip_idempotent (s : string) : strip (strip s) = strip s.
Proof.
  unfold strip.
  assert (H : lstrip (rstrip (lstrip s)) = rstrip (lstrip s)).
  { destruct (lstrip_head s) as [->|(c & r & -> & Hc)]; [reflexivity|].
    destruct (rstrip_head c r Hc) as [r' ->]. simpl. rewrite Hc. reflexivity. }
  rewrite H. apply rstrip_idempotent.
Qed.

Lemma common_field_ok (d : record) (k : string) (v : option string) :
  common d -> lookup k d = Some v -> field_ok k v.
Proof.
  intros (img & nm & c & s & -> & Hc & Hs). cbn [lookup].
  assert (Hstr : forall x, has_char "," x = false ->
                           has_char "," (strip x) = false).
  { intros x Hx. rewrite strip_has_char; [exact Hx|reflexivity]. }
  destruct (String.eqb_spec "img_url" k) as [<-|_].
  { intros E. injection E as <-. unfold field_ok.
    repeat split; try (intros H; exfalso; intuition discriminate). eauto. }
  destruct (String.eqb_spec "name" k) as [<-|_].
  { intros _. unfold field_ok.
    repeat split; intros H; exfalso; intuition discriminate. }
  destruct (String.eqb_spec "city" k) as [<-|_].
  { intros E. injection E as <-. unfold field_ok.
    repeat split; try (intros H; exfalso; intuition discriminate).
    intros _. exists (strip c).
    repeat split; [apply Hstr, Hc|apply strip_first|apply rstrip_last]. }
  destruct (String.eqb_spec "state" k) as [<-|_];
    [|intros E; discriminate E].
  intros E. injection E as <-. unfold field_ok.
  repeat split; try (intros H; exfalso; intuition discriminate).
  intros _. exists (strip s).
  repeat split; [apply Hstr, Hs|apply strip_first|apply rstrip_last].
Qed.

Lemma assigned_field_ok (k : string) (v : option string) :
  assigned k v -> field_ok k v.
Proof.
  intros [[-> [p ->]]|[[-> [d ->]]|[[-> [h ->]]|[[-> [h ->]]|[[-> [x ->]]| ->]]]]];
    unfold field_ok;
    repeat split; try (intros H; exfalso; intuition discriminate); intros _.
  - exists (replace "," EmptyString p). split; [reflexivity|].
    apply replace_removes.
  - exists (strftime_Ymd d). split; [reflexivity|apply strftime_Ymd_election].
  - eauto.
  - eauto.
  - destruct x as [s|]; [right|left; reflexivity].
    rewrite parse_phone_Some. exists (normalize_phone s).
    repeat split; apply normalize_phone_clean; auto.
Qed.

Lemma extracted_field_ok (r : record) (k : string) (v : option string) :
  extracted r -> lookup k r = Some v -> field_ok k v.
Proof.
  intros (d & Hd & Hu). revert k v.
  induction Hu as [|k0 v0 d' _ IH H0]; intros k v Hl.
  - exact (common_field_ok d k v Hd Hl).
  - destruct (String.eqb_spec k k0) as [->|Hne].
    + rewrite lookup_dict_set in Hl. injection Hl as <-.
      exact (assigned_field_ok k0 v0 H0).
    + rewrite lookup_dict_set_other in Hl by exact Hne. exact (IH k v Hl).
Qed.

(** X6.  In every record a run yields: [img_url], [city] and [state] are
    strings, never [None]; the city and the state hold no comma and
    neither start nor end with white space; a [population] holds no
    comma; a [next_election] is one to four digits followed by a hyphen,
    two digits, a hyphen and two digits; the two URLs are strings; a
    [phone] is [None] or holds no parenthesis and no space. *)
Theorem X6_values_of_records
  (post : string -> response) (states : list string) (r : record)
  (k : string) (v : option string) :
  In r (yielded (snd (get_mayors post states))) ->
  lookup k r = Some v ->
  field_ok k v.
Proof.
  intros Hin Hl.
  pose proof (get_mayors_extracted post states) as Hall.
  rewrite Forall_forall in Hall.
  exact (extracted_field_ok r k v (Hall r Hin) Hl).
Qed.

Lemma X6_witness : field_ok "next_election" (Some "2024-11-05").
Proof.
  apply (X6_values_of_records
           (Sample.site (Sample.document [Sample.springfield]))
           ["Illinois"] Sample.springfield_record).
  - simpl. tauto.
  - reflexivity.
Defined.

(* --------------------------------------------------------------------- *)
(** *** The population line *)

Lemma split_single_index (sep : ascii) (s : string) :
  has_char sep s = false -> getitem (split sep s) 1 = Raise IndexError.
Proof. intros H. rewrite (split_without sep s H). reflexivity. Qed.

(** X7.  A text item that contains "Population" but no colon, in a list
    that line 66 does not skip (the "City, State" text of a city so
    named is such an item): [item.split(':')[1]] raises [IndexError]
    outside the [try] of lines 58-68, so the extraction of the state
    raises and the run ends with a non-zero status. *)
Theorem X7_population_without_colon_aborts
  (post : string -> response) (f : format)
  (states_before states_after : list string) (state : string)
  (page content : node) (before after : list node) (mayor_ul : node)
  (s : string) :
  post state = Page page ->
  select_one_div_post_content page = Some content ->
  find_all "ul" content = before ++ mayor_ul :: after ->
  common_fields (items_of mayor_ul) <> Raise IndexError ->
  In (NavigableString s) (items_of mayor_ul) ->
  contains "Population" s = true ->
  has_char ":" s = false ->
  (forall data, match_item data (NavigableString s) = Raise IndexError)
  /\ (exists l e, get_mayors_for_state post state = (l, Raise e))
  /\ status (main post f (states_before ++ state :: states_after)) = 1.
Proof.
  intros Hpost Hsel Hfind Hcommon Hin Hkw Hcolon.
  assert (Hitem : forall data,
             match_item data (NavigableString s) = Raise IndexError).
  { intros data. unfold match_item, match_population, split_item.
    simpl py_in. rewrite Hkw, (split_single_index ":" s Hcolon). reflexivity. }
  assert (Hstate : exists l e, get_mayors_for_state post state = (l, Raise e)).
  { unfold get_mayors_for_state. rewrite Hpost.
    apply (mayors_of_page_raises state page content before after mayor_ul);
      try assumption.
    apply (match_items_raises (NavigableString s)); [assumption|].
    intros data. exists IndexError. apply Hitem. }
  split; [exact Hitem|]. split; [exact Hstate|].
  apply main_aborts. exact Hstate.
Qed.

Lemma X7_witness :
  get_mayors_for_state
    (Sample.site (Sample.document [Sample.peoria; Sample.population_city]))
    "Ohio"
  = ([(INFO, "found 2 mayors for Ohio")], Raise IndexError)
  /\ status
       (main
          (Sample.site
             (Sample.document [Sample.peoria; Sample.population_city]))
          csv ([] ++ "Ohio" :: [])) = 1.
Proof.
  split; [reflexivity|].
  apply (X7_population_without_colon_aborts
           (Sample.site
              (Sample.document [Sample.peoria; Sample.population_city]))
           csv [] [] "Ohio"
           (Sample.document [Sample.peoria; Sample.population_city])
           (Tag "div" [("class", "post-content clearfix")]
              [Sample.peoria; Sample.population_city])
           [Sample.peoria] [] Sample.population_city
           "Population Center, Ohio");
    try reflexivity.
  - discriminate.
  - simpl. tauto.
Defined.

(* --------------------------------------------------------------------- *)
(** *** The generator and the run *)

Section Runs.

Variable post : string -> response.

Lemma get_mayors_app (a b : list string) :
  get_mayors post (a ++ b)
  = match get_mayors post a with
    | (la, mkstream ya (Some e)) => (la, mkstream ya (Some e))
    | (la, mkstream ya None) =>
        let (lb, sb) := get_mayors post b in
        (la ++ lb, mkstream (ya ++ yielded sb) (raised sb))
    end.
Proof.
  induction a as [|s a IH]; simpl.
  - destruct (get_mayors post b) as [lb [yb rb]]. reflexivity.
  - destruct (get_mayors_for_state post s) as [l [ms|e]]; [|reflexivity].
    rewrite IH.
    destruct (get_mayors post a) as [la [ya [e|]]]; simpl; [reflexivity|].
    destruct (get_mayors post b) as [lb [yb rb]]. simpl.
    rewrite !app_assoc. reflexivity.
Qed.

Lemma get_mayors_raising (s : string) (after : list string)
  (l : list log_record) (e : exn) :
  get_mayors_for_state post s = (l, Raise e) ->
  get_mayors post (s :: after) = (l, mkstream [] (Some e)).
Proof. intros H. simpl. rewrite H. reflexivity. Qed.

Lemma main_csv (states : list string) :
  main post csv states
  = mkrun
      (header_row
       ++ concat_rows (map csv_row (yielded (snd (get_mayors post states)))))
      (fst (get_mayors post states))
      (exit_status (raised (snd (get_mayors post states)))).
Proof.
  unfold main. pose proof (csv_of_run post states) as H.
  destruct (get_mayors post states) as [l s]. simpl in *.
  rewrite H. reflexivity.
Qed.

Lemma main_json (states : list string) :
  main post json states
  = mkrun
      match raised (snd (get_mayors post states)) with
      | None => json_array (yielded (snd (get_mayors post states)))
      | Some _ => EmptyString
      end
      (fst (get_mayors post states))
      (exit_status (raised (snd (get_mayors post states)))).
Proof.
  unfold main. destruct (get_mayors post states) as [l [ys [e|]]]; simpl.
  - reflexivity.
  - unfold write_to_json. simpl. rewrite dumps_records. reflexivity.
Qed.

End Runs.

(** X8.  When the extraction of every state returns, the generator yields
    the records of the states in the order of the states, each state's
    records in their own order, logs what the states logged in the same
    order, and raises nothing. *)
Theorem X8_states_in_order
  (post : string -> response) (states : list string)
  (logs : string -> list log_record) (records : string -> list record) :
  (forall s, In s states ->
             get_mayors_for_state post s = (logs s, Ok (records s))) ->
  get_mayors post states
  = (concat (map logs states), mkstream (concat (map records states)) None).
Proof.
  induction states as [|s states IH]; intros H; simpl; [reflexivity|].
  rewrite (H s (or_introl eq_refl)).
  rewrite (IH (fun s' Hs' => H s' (or_intror Hs'))). reflexivity.
Qed.

Lemma X8_witness :
  get_mayors (fun s => if (s =? "Illinois")%string
                       then Page (Sample.document [Sample.peoria])
                       else Page (Sample.document []))
    ["Guam"; "Illinois"]
  = ([(INFO, "no mayors found for Guam");
      (INFO, "found 1 mayors for Illinois")],
     mkstream [Sample.peoria_record] None).
Proof.
  apply (X8_states_in_order
           (fun s => if (s =? "Illinois")%string
                     then Page (Sample.document [Sample.peoria])
                     else Page (Sample.document []))
           ["Guam"; "Illinois"]
           (fun s => if (s =? "Illinois")%string
                     then [(INFO, "found 1 mayors for Illinois")]
                     else [(INFO, "no mayors found for " ++ s)%string])
           (fun s => if (s =? "Illinois")%string
                     then [Sample.peoria_record] else [])).
  intros s [<-|[<-|[]]]; reflexivity.
Defined.

(** X9.  When the extraction of a state raises after states that all
    returned, the states after it are never requested: the log ends
    with the entries of the failing state.  The CSV output then holds
    the header row and the rows of the records of the earlier states,
    the JSON output nothing, and the status is one in both cases. *)
Theorem X9_failure_leaves_partial_csv
  (post : string -> response) (before after : list string) (state : string)
  (l : list log_record) (e : exn) :
  raised (snd (get_mayors post before)) = None ->
  get_mayors_for_state post state = (l, Raise e) ->
  main post csv (before ++ state :: after)
  = mkrun
      (header_row
       ++ concat_rows (map csv_row (yielded (snd (get_mayors post before)))))
      (fst (get_mayors post before) ++ l) 1
  /\ main post json (before ++ state :: after)
     = mkrun EmptyString (fst (get_mayors post before) ++ l) 1.
Proof.
  intros Hb Hs.
  assert (H : get_mayors post (before ++ state :: after)
              = (fst (get_mayors post before) ++ l,
                 mkstream (yielded (snd (get_mayors post before))) (Some e))).
  { rewrite get_mayors_app, (get_mayors_raising post state after l e Hs).
    destruct (get_mayors post before) as [lb [yb rb]]. simpl in *. subst rb.
    rewrite app_nil_r. reflexivity. }
  split.
  - rewrite main_csv, H. reflexivity.
  - rewrite main_json, H. reflexivity.
Qed.

Lemma X9_witness :
  main (fun s => if (s =? "Illinois")%string
                 then Page (Sample.document [Sample.peoria])
                 else Failure)
    csv (["Illinois"] ++ "Indiana" :: ["Iowa"])
  = mkrun
      (header_row
       ++ "Rita Ali,,,,https://example.org/ali.jpg,Peoria,Illinois, 113150,,"
       ++ cr ++ newline)
      [(INFO, "found 1 mayors for Illinois")] 1
  /\ main (fun s => if (s =? "Illinois")%string
                    then Page (Sample.document [Sample.peoria])
                    else Failure)
       json (["Illinois"] ++ "Indiana" :: ["Iowa"])
     = mkrun EmptyString [(INFO, "found 1 mayors for Illinois")] 1.
Proof.
  apply (X9_failure_leaves_partial_csv
           (fun s => if (s =? "Illinois")%string
                     then Page (Sample.document [Sample.peoria])
                     else Failure)
           ["Illinois"] ["Iowa"] "Indiana" [] HTTPError);
    reflexivity.
Defined.

(** X10.  A run in closed form.  With the CSV writer the output is the
    header row followed by the rows of the records yielded, also when
    the run ends with an exception: the writer itself never raises on
    records of the extraction.  With the JSON writer the output is the
    array of the records yielded, or nothing when the generator raised.
    The status is zero exactly when the generator raised nothing. *)
Theorem X10_run_closed_form
  (post : string -> response) (states : list string) :
  main post csv states
  = mkrun
      (header_row
       ++ concat_rows (map csv_row (yielded (snd (get_mayors post states)))))
      (fst (get_mayors post states))
      (exit_status (raised (snd (get_mayors post states))))
  /\ main post json states
     = mkrun
         match raised (snd (get_mayors post states)) with
         | None => json_array (yielded (snd (get_mayors post states)))
         | Some _ => EmptyString
         end
         (fst (get_mayors post states))
         (exit_status (raised (snd (get_mayors post states))))
  /\ (forall f, status (main post f states) = 0
                <-> raised (snd (get_mayors post states)) = None).
Proof.
  split; [apply main_csv|]. split; [apply main_json|].
  intros [|]; [rewrite main_csv|rewrite main_json]; simpl;
    destruct (raised (snd (get_mayors post states))); simpl;
    split; intros H; try reflexivity; discriminate.
Qed.

(* --------------------------------------------------------------------- *)
(** *** The output name and the format *)

Lemma length_append (a b : string) :
  String.length (a ++ b) = String.length a + String.length b.
Proof. induction a as [|c a IH]; simpl; [|rewrite IH]; reflexivity. Qed.

Lemma rfind_without (c : ascii) (s : string) :
  has_char c s = false -> rfind c s = None.
Proof.
  induction s as [|x s IH]; simpl; [reflexivity|]. intros H.
  apply orb_false_iff in H as [Hx Hs]. rewrite (IH Hs), Hx. reflexivity.
Qed.

Lemma rfind_last (c : ascii) (a b : string) :
  has_char c b = false ->
  rfind c (a ++ String c b) = Some (String.length a).
Proof.
  intros Hb. induction a as [|x a IH]; simpl.
  - rewrite (rfind_without c b Hb), Ascii.eqb_refl. reflexivity.
  - rewrite IH. reflexivity.
Qed.

Lemma rfind_app_without (c : ascii) (a b : string) :
  has_char c b = false -> rfind c (a ++ b) = rfind c a.
Proof.
  intros Hb. induction a as [|x a IH]; simpl.
  - apply rfind_without, Hb.
  - rewrite IH. reflexivity.
Qed.

Lemma rfind_bound (c : ascii) (s : string) (i : nat) :
  rfind c s = Some i -> i < String.length s.
Proof.
  revert i. induction s as [|x s IH]; simpl; intros i H; [discriminate|].
  destruct (rfind c s) as [j|].
  - injection H as <-. specialize (IH j eq_refl). lia.
  - destruct (Ascii.eqb x c); [|discriminate]. injection H as <-. lia.
Qed.

Lemma substring_all (a b : string) :
  substring 0 (String.length a) (a ++ b) = a.
Proof. induction a as [|c a IH]; simpl; [destruct b|rewrite IH]; reflexivity. Qed.

Lemma substring_whole (a : string) : substring 0 (String.length a) a = a.
Proof. induction a as [|c a IH]; simpl; [|rewrite IH]; reflexivity. Qed.

Lemma substring_rest (a b : string) :
  substring (String.length a) (String.length b) (a ++ b) = b.
Proof. induction a as [|c a IH]; simpl; [apply substring_whole|exact IH]. Qed.

Lemma substring_across (i m : nat) (a x : string) :
  i <= String.length a ->
  substring i (String.length a - i + m) (a ++ x)
  = (substring i (String.length a - i) a ++ substring 0 m x)%string.
Proof.
  revert i. induction a as [|c a IH]; intros i Hi; simpl in *.
  - assert (i = 0) by lia. subst i. simpl. destruct (substring 0 m x);
      reflexivity.
  - destruct i as [|i].
    + simpl. f_equal. specialize (IH 0 (Nat.le_0_l _)).
      rewrite Nat.sub_0_r in IH. exact IH.
    + apply IH. lia.
Qed.

Lemma not_all_dots_app (a b : string) :
  not_all_dots (a ++ b) = not_all_dots a || not_all_dots b.
Proof.
  induction a as [|c a IH]; simpl; [reflexivity|].
  rewrite IH, orb_assoc. reflexivity.
Qed.

(** The extension of a name: what follows the last dot of the last
    component, when the component does not consist of dots up to it. *)
Lemma splitext_name (dir base ext : string) :
  has_char "/" base = false ->
  not_all_dots base = true ->
  has_char "." ext = false ->
  has_char "/" ext = false ->
  splitext (dir ++ base ++ "." ++ ext)
  = ((dir ++ base)%string, ("." ++ ext)%string).
Proof.
  intros Hbase Hdots Hext Hsep. unfold splitext.
  set (p := (dir ++ base ++ "." ++ ext)%string).
  assert (Hp : p = ((dir ++ base) ++ String "." ext)%string).
  { unfold p. rewrite append_assoc. reflexivity. }
  assert (Hdot : rfind "." p = Some (String.length dir + String.length base)).
  { rewrite Hp, (rfind_last "." (dir ++ base) ext Hext), length_append.
    reflexivity. }
  rewrite Hdot.
  assert (Hslash : rfind "/" p = rfind "/" dir).
  { unfold p. apply rfind_app_without.
    rewrite has_char_app, Hbase. simpl. exact Hsep. }
  rewrite Hslash.
  set (start := match rfind "/" dir with Some i => S i | None => 0 end).
  assert (Hstart : start <= String.length dir).
  { unfold start. destruct (rfind "/" dir) as [i|] eqn:E; [|lia].
    apply rfind_bound in E. lia. }
  replace (start <=? String.length dir + String.length base)%nat with true
    by (symmetry; apply Nat.leb_le; lia).
  replace (String.length dir + String.length base - start)
    with (String.length dir - start + String.length base) by lia.
  unfold p at 1.
  rewrite (substring_across start (String.length base) dir _ Hstart).
  rewrite not_all_dots_app, substring_all, Hdots, orb_true_r. simpl andb.
  cbv iota. f_equal.
  - rewrite Hp, <- length_append. apply substring_all.
  - rewrite Hp, <- length_append.
    replace (String.length ((dir ++ base) ++ String "." ext)
             - String.length (dir ++ base))
      with (String.length (String "." ext))
      by (rewrite (length_append (dir ++ base)); lia).
    apply substring_rest.
Qed.

Lemma splitext_without_dot (name : string) :
  has_char "." name = false -> splitext name = (name, EmptyString).
Proof.
  intros H. unfold splitext. rewrite (rfind_without "." name H). reflexivity.
Qed.

Lemma writer_named_format (f : format) :
  writer_named (format_name f) = Ok f.
Proof. destruct f; reflexivity. Qed.

Lemma name_with_dot (name : string) :
  has_char "." name = true -> (name =? "<stdout>")%string = false.
Proof.
  intros H. apply String.eqb_neq. intros ->. discriminate H.
Qed.

(** X11.  The choice of the writer (lines 123-135).  Without [--format],
    an output name whose last component is a base, a dot and [csv] or
    [json] selects the writer of that name, whatever the directory,
    provided the base is not made of dots only; the standard output
    selects CSV; and a [--format] option decides whatever the output
    name is.  The run is then the main block with that writer and with
    the states given, or [ALL_STATES] without [--state]. *)
Theorem X11_writer_selection
  (post : string -> response) (ALL_STATES : list string)
  (dir base : string) (f : format) (st : option (list string)) (v : bool) :
  has_char "/" base = false ->
  not_all_dots base = true ->
  program post ALL_STATES
    (mknamespace (dir ++ base ++ "." ++ format_name f) None st v)
  = main post f match st with Some states => states | None => ALL_STATES end
  /\ program post ALL_STATES (mknamespace "<stdout>" None st v)
     = main post csv
         match st with Some states => states | None => ALL_STATES end
  /\ (forall name,
         program post ALL_STATES (mknamespace name (Some f) st v)
         = main post f
             match st with Some states => states | None => ALL_STATES end).
Proof.
  intros Hbase Hdots. split; [|split].
  - unfold program, parse_arguments, guessed_format.
    cbn [out_name format_option state_option].
    assert (Hext : has_char "." (format_name f) = false
                   /\ has_char "/" (format_name f) = false)
      by (destruct f; split; reflexivity).
    destruct Hext as [He Hs].
    rewrite name_with_dot.
    + rewrite (splitext_name dir base (format_name f) Hbase Hdots He Hs).
      cbn [snd tail append]. rewrite writer_named_format. reflexivity.
    + rewrite !has_char_app. simpl. rewrite !orb_true_r. reflexivity.
  - reflexivity.
  - intros name. unfold program, parse_arguments, guessed_format.
    cbn [out_name format_option state_option].
    rewrite writer_named_format. reflexivity.
Qed.

Lemma X11_witness :
  program (Sample.site (Sample.document [])) ["Guam"]
    (mknamespace "out/2024.05/mayors.json" None None false)
  = mkrun "[]" [(INFO, "no mayors found for Guam")] 0.
Proof.
  apply (X11_writer_selection (Sample.site (Sample.document [])) ["Guam"]
           "out/2024.05/" "mayors" json None false); reflexivity.
Defined.

Lemma splitext_last_component (d base : string) :
  has_char "." base = false ->
  has_char "/" base = false ->
  splitext (d ++ "/" ++ base) = ((d ++ "/" ++ base)%string, EmptyString).
Proof.
  intros Hdot Hsep. unfold splitext.
  change (d ++ "/" ++ base)%string with (d ++ String "/" base)%string.
  rewrite (rfind_app_without "." d (String "/" base)) by exact Hdot.
  destruct (rfind "." d) as [i|] eqn:E; [|reflexivity].
  rewrite (rfind_last "/" d base Hsep).
  apply rfind_bound in E.
  replace (S (String.length d) <=? i)%nat with false
    by (symmetry; apply Nat.leb_gt; lia).
  reflexivity.
Qed.

(** X12.  Without [--format], an output name whose last component holds
    no dot (and that is not the standard output) has an empty extension,
    also when a directory of the path holds dots; the empty name is no
    key of the dictionary of line 132, so [KeyError] is raised before
    the main block: nothing is requested from the site, nothing is
    logged or written, and the status is one. *)
Theorem X12_no_extension_is_key_error
  (post : string -> response) (ALL_STATES : list string)
  (dir base : string) (st : option (list string)) (v : bool) :
  dir = EmptyString \/ (exists d, dir = (d ++ "/")%string) ->
  has_char "." base = false ->
  has_char "/" base = false ->
  (dir ++ base)%string <> "<stdout>" ->
  parse_arguments ALL_STATES (mknamespace (dir ++ base) None st v)
  = Raise KeyError
  /\ program post ALL_STATES (mknamespace (dir ++ base) None st v)
     = mkrun EmptyString [] 1.
Proof.
  intros Hdir Hdot Hsep Hname.
  assert (Hext : splitext (dir ++ base) = ((dir ++ base)%string, EmptyString)).
  { destruct Hdir as [->|[d ->]].
    - apply splitext_without_dot, Hdot.
    - rewrite append_assoc. apply splitext_last_component; assumption. }
  assert (H : parse_arguments ALL_STATES (mknamespace (dir ++ base) None st v)
              = Raise KeyError).
  { unfold parse_arguments, guessed_format.
    cbn [out_name format_option state_option].
    apply String.eqb_neq in Hname. rewrite Hname, Hext. reflexivity. }
  split; [exact H|]. unfold program. rewrite H. reflexivity.
Qed.

Lemma X12_witness :
  program (Sample.site (Sample.document [Sample.peoria])) ["Illinois"]
    (mknamespace "out.d/mayors" None None true)
  = mkrun EmptyString [] 1.
Proof.
  apply (X12_no_extension_is_key_error
           (Sample.site (Sample.document [Sample.peoria])) ["Illinois"]
           "out.d/" "mayors" None true).
  - right. exists "out.d". reflexivity.
  - reflexivity.
  - reflexivity.
  - discriminate.
Defined.

Example hidden_file_has_no_extension :
  splitext ".json" = (".json", EmptyString)
  /\ splitext "out.d/mayors" = ("out.d/mayors", EmptyString)
  /\ splitext "mayors.tar.json" = ("mayors.tar", ".json").
Proof. repeat split. Qed.

(* --------------------------------------------------------------------- *)
(** *** The characters of the JSON output *)

Lemma all_chars_app (p : ascii -> bool) (a b : string) :
  all_chars p (a ++ b) = all_chars p a && all_chars p b.
Proof.
  induction a as [|c a IH]; simpl; [reflexivity|].
  rewrite IH, andb_assoc. reflexivity.
Qed.

Lemma hex_ascii (n : nat) : ascii_text (Json.hex n) = true.
Proof. unfold Json.hex. do 16 (destruct n as [|n]; [reflexivity|]). reflexivity. Qed.

Lemma escape_ascii (c : ascii) : all_chars ascii_text (Json.escape c) = true.
Proof.
  unfold Json.escape.
  repeat match goal with
         | |- context [if (?a =? ?b)%nat then _ else _] =>
             destruct (a =? b)%nat; [reflexivity|]
         end.
  destruct ((32 <=? nat_of_ascii c)%nat && (nat_of_ascii c <=? 126)%nat) eqn:H.
  - simpl. unfold ascii_text. rewrite H, orb_true_r. reflexivity.
  - cbn [append all_chars]. rewrite !hex_ascii. reflexivity.
Qed.

Lemma encode_str_ascii (s : string) :
  all_chars ascii_text (Json.encode_str s) = true.
Proof.
  unfold Json.encode_str. rewrite !all_chars_app.
  assert (H : all_chars ascii_text (Json.escape_all s) = true).
  { induction s as [|c s IH]; simpl; [reflexivity|].
    rewrite all_chars_app, escape_ascii, IH. reflexivity. }
  rewrite H. reflexivity.
Qed.

Lemma join_ascii (sep : string) (l : list string) :
  all_chars ascii_text sep = true ->
  Forall (fun x => all_chars ascii_text x = true) l ->
  all_chars ascii_text (join sep l) = true.
Proof.
  intros Hsep H. induction H as [|x l Hx Hl IH]; [reflexivity|].
  destruct l as [|y l]; [exact Hx|].
  change (join sep (x :: y :: l)) with (x ++ sep ++ join sep (y :: l))%string.
  rewrite !all_chars_app, Hx, Hsep, IH. reflexivity.
Qed.

Lemma json_object_ascii (r : record) :
  all_chars ascii_text (json_object r) = true.
Proof.
  destruct r as [|kv r]; [reflexivity|]. unfold json_object.
  rewrite !all_chars_app, join_ascii; [reflexivity|reflexivity|].
  apply Forall_forall. intros x Hx. apply in_map_iff in Hx as ([k w] & <- & _).
  unfold json_member. simpl fst. simpl snd.
  rewrite !all_chars_app, encode_str_ascii.
  destruct w; [rewrite encode_str_ascii|]; reflexivity.
Qed.

Lemma json_array_ascii (rs : list record) :
  all_chars ascii_text (json_array rs) = true.
Proof.
  destruct rs as [|r rs]; [reflexivity|]. unfold json_array.
  rewrite !all_chars_app, join_ascii; [reflexivity|reflexivity|].
  apply Forall_forall. intros x Hx. apply in_map_iff in Hx as (r' & <- & _).
  apply json_object_ascii.
Qed.

(** X13.  Whatever the pages hold, the JSON output of a run consists of
    printable ASCII characters and line feeds only: every other
    character of a field is written as an escape. *)
Theorem X13_json_output_is_ascii
  (post : string -> response) (states : list string) :
  all_chars ascii_text (output (main post json states)) = true.
Proof.
  rewrite main_json. simpl.
  destruct (raised (snd (get_mayors post states)));
    [reflexivity|apply json_array_ascii].
Qed.

(* --------------------------------------------------------------------- *)
(** *** Which lists are skipped *)

Lemma getitem_short {A : Type} (l : list A) (i : nat) :
  getitem l i = Raise IndexError <-> List.length l <= i.
Proof.
  unfold getitem. destruct (nth_error l i) eqn:H.
  - split; [discriminate|]. intros Hl.
    apply nth_error_None in Hl. congruence.
  - split; [|reflexivity]. intros _. apply nth_error_None, H.
Qed.

Lemma getitem_Ok {A : Type} (l : list A) (i : nat) (a : A) :
  getitem l i = Ok a <-> nth_error l i = Some a.
Proof.
  unfold getitem. destruct (nth_error l i); split; intros H;
    try discriminate; injection H as ->; reflexivity.
Qed.

Lemma split_second_missing (s : string) :
  getitem (split "," s) 1 = Raise IndexError <-> has_char "," s = false.
Proof.
  split.
  - intros H. destruct (has_char "," s) eqn:Hc; [|reflexivity].
    exfalso. revert H. clear - Hc.
    induction s as [|c s IH]; [discriminate Hc|]. cbn [has_char split] in *.
    destruct (Ascii.eqb c ",") eqn:E.
    + pose proof (split_not_nil "," s) as Hn.
      destruct (split "," s); [contradiction|]. discriminate.
    + cbn [orb] in Hc. specialize (IH Hc).
      destruct (split "," s) as [|p [|q ps]]; intros H;
        [apply IH; reflexivity|apply IH; reflexivity|discriminate H].
  - intros H. rewrite (split_without "," s H). reflexivity.
Qed.

Lemma split_first_present (s : string) :
  exists p, getitem (split "," s) 0 = Ok p.
Proof.
  pose proof (split_not_nil "," s) as H.
  destruct (split "," s) as [|p ps]; [contradiction|]. exists p. reflexivity.
Qed.

(** X14.  The lists that line 66 skips.  The common fields raise
    [IndexError], so that the list is logged and skipped, exactly when
    the list has fewer than two items, or its second item is a tag with
    a [src] and either it has fewer than four items, or its fourth item
    is a text without a comma, or its fourth item is a tag below which
    some tag is named [split].  Any other failure of the common fields
    is another exception and leaves the function. *)
Theorem X14_skipped_lists (items : list node) :
  common_fields items = Raise IndexError
  <-> List.length items < 2
      \/ exists second src,
           nth_error items 1 = Some second
           /\ getattr second "src" = Ok src
           /\ (List.length items < 4
               \/ exists fourth,
                    nth_error items 3 = Some fourth
                    /\ match fourth with
                       | NavigableString s => has_char "," s = false
                       | Tag _ _ _ => find "split" fourth <> None
                       end).
Proof.
  unfold common_fields.
  destruct (getitem items 1) as [i1|e1] eqn:H1.
  2:{ assert (E : e1 = IndexError).
      { unfold getitem in H1. destruct (nth_error items 1); [discriminate|].
        injection H1 as <-. reflexivity. }
      subst e1. cbn [bind]. split; [|reflexivity]. intros _. left.
      apply getitem_short in H1. lia. }
  apply getitem_Ok in H1. cbn [bind].
  assert (Hlen1 : 2 <= List.length items).
  { assert (1 < List.length items); [|lia].
    apply nth_error_Some. congruence. }
  destruct (getattr i1 "src") as [src|e] eqn:Hsrc; cbn [bind].
  2:{ split.
      - intros E. injection E as ->. exfalso.
        destruct i1 as [s|nm a cs]; cbn [getattr] in Hsrc; [discriminate|].
        destruct (lookup "src" a); discriminate.
      - intros [Hl|(second & src & Hs & Ha & _)]; [lia|].
        rewrite H1 in Hs. injection Hs as <-. congruence. }
  destruct (getitem items 2) as [i2|e2] eqn:H2; cbn [bind].
  2:{ assert (E : e2 = IndexError).
      { unfold getitem in H2. destruct (nth_error items 2); [discriminate|].
        injection H2 as <-. reflexivity. }
      subst e2. split; [|reflexivity]. intros _. right.
      exists i1, src. repeat split; try assumption. left.
      apply getitem_short in H2. lia. }
  destruct (getitem items 3) as [i3|e3] eqn:H3; cbn [bind].
  2:{ assert (E : e3 = IndexError).
      { unfold getitem in H3. destruct (nth_error items 3); [discriminate|].
        injection H3 as <-. reflexivity. }
      subst e3. split; [|reflexivity]. intros _. right.
      exists i1, src. repeat split; try assumption. left.
      apply getitem_short in H3. lia. }
  apply getitem_Ok in H3.
  assert (Hlen3 : 4 <= List.length items).
  { assert (3 < List.length items); [|lia].
    apply nth_error_Some. congruence. }
  destruct i3 as [s|nm a cs]; cbn [bind split_item].
  - destruct (split_first_present s) as [p Hp]. rewrite Hp. cbn [bind].
    destruct (getitem (split "," s) 1) as [q|e] eqn:Hq; cbn [bind].
    + split; [discriminate|].
      intros [Hl|(second & src' & _ & _ & [Hl|(fourth & Hf & Hc)])]; try lia.
      rewrite H3 in Hf. injection Hf as <-.
      apply split_second_missing in Hc. congruence.
    + assert (E : e = IndexError).
      { unfold getitem in Hq.
        destruct (nth_error (split "," s) 1); [discriminate|].
        injection Hq as <-. reflexivity. }
      subst e. split; [|reflexivity]. intros _. right.
      exists i1, src. repeat split; try assumption. right.
      exists (NavigableString s). split; [exact H3|].
      apply split_second_missing, Hq.
  - destruct (find "split" (Tag nm a cs)) as [t|] eqn:Hf; cbn [bind].
    + split; [|reflexivity]. intros _. right.
      exists i1, src. repeat split; try assumption. right.
      exists (Tag nm a cs). split; [exact H3|]. rewrite Hf. discriminate.
    + split; [discriminate|].
      intros [Hl|(second & src' & _ & _ & [Hl|(fourth & Hf' & Hc)])]; try lia.
      rewrite H3 in Hf'. injection Hf' as <-. cbn beta iota in Hc.
      rewrite Hf in Hc. contradiction.
Qed.

(** X15.  Every calendar date of the years 1 to 9999, written
    [MM/DD/YYYY] with leading zeros after "Next Election Date: ", is
    accepted, and what is stored under [next_election] is the year in
    decimal without leading zeros, then the month and the day of the
    text in two digits each, with hyphens between them.  From the year
    1000 on the year is stored with the four digits of the text; below
    it the stored year is shorter. *)
Theorem X15_padded_date_is_reordered
  (data : record) (y m d : nat) :
  valid_date y m d = true ->
  match_next_election data
    (NavigableString
       ("Next Election Date: " ++ dec2 m ++ "/" ++ dec2 d ++ "/" ++ dec4 y))
  = Ok (dict_set "next_election"
          (Some (str_of_nat y ++ "-" ++ dec2 m ++ "-" ++ dec2 d)%string) data)
  /\ (1000 <= y -> str_of_nat y = dec4 y)
  /\ (y < 1000 -> String.length (str_of_nat y) < 4).
Proof.
  intros Hv.
  pose proof (valid_date_bounds y m d Hv) as [Hy _].
  rewrite <- (year_text_decimal y Hy).
  split; [|split; [apply year_text_full|]].
  2:{ intros Hlt. unfold year_text.
      destruct (y <? 10)%nat; [simpl; lia|].
      destruct (y <? 100)%nat; [simpl; lia|].
      replace (y <? 1000)%nat with true by (symmetry; apply Nat.ltb_lt; lia).
      simpl. lia. }
  pose proof (strptime_padded y m d Hv) as Hparse.
  assert (Hplain :
            all_chars (fun c => negb (isspace c))
              (dec2 m ++ "/" ++ dec2 d ++ "/" ++ dec4 y) = true
            /\ has_char ":" (dec2 m ++ "/" ++ dec2 d ++ "/" ++ dec4 y)
               = false).
  { destruct (dec2_plain m) as [A1 B1], (dec2_plain d) as [A2 B2],
      (dec4_plain y) as [A3 B3].
    rewrite !all_chars_app, !has_char_app, A1, A2, A3, B1, B2, B3.
    split; reflexivity. }
  destruct Hplain as [Hspace Hcolon].
  remember (dec2 m ++ "/" ++ dec2 d ++ "/" ++ dec4 y)%string as date
    eqn:Hdate.
  unfold match_next_election, split_item. cbn [py_in].
  change ("Next Election Date: " ++ date)%string
    with ("Next Election Date" ++ String ":" (String " " date))%string.
  rewrite contains_prefix.
  rewrite (split_at_first ":" "Next Election Date" _ eq_refl).
  assert (Hrest : has_char ":" (String " " date) = false)
    by (cbn [has_char]; rewrite Hcolon; reflexivity).
  rewrite (split_without ":" _ Hrest). cbn [getitem nth_error bind].
  assert (Hstrip : strip (String " " date) = date).
  { transitivity (strip date); [reflexivity|apply strip_fixed, Hspace]. }
  rewrite Hstrip, Hparse. reflexivity.
Qed.

Lemma X15_witness :
  match_next_election []
    (NavigableString "Next Election Date: 02/29/2024")
  = Ok [("next_election", Some "2024-02-29")].
Proof.
  apply (X15_padded_date_is_reordered [] 2024 2 29). reflexivity.
Defined.

Example short_year_loses_its_zeros :
  match_next_election []
    (NavigableString "Next Election Date: 01/01/0005")
  = Ok [("next_election", Some "5-01-01")].
Proof. reflexivity. Qed.
